(** * LeafHealth front end: interaction and state-lifecycle layer

    A shallow embedding of the React pages [HomePage.jsx] (one-shot
    diagnosis) and [ChatPage.jsx] (plant-care chat).  Each component is a
    record of its [useState] cells; each handler is a function from the
    state of the render it closes over to the next state together with the
    effects it performs (toasts, file reads, HTTP calls).  An [async]
    handler is cut at its [await]: the part that runs synchronously, and
    the continuations run when the promise settles.  A handler runs to its
    first [await] and the component re-renders before the next event is
    dispatched, so one handler call is one atomic step. *)

From Stdlib Require Import String Ascii List Bool Arith NArith Lia.
From Stdlib.Strings Require Import Byte.
Import ListNotations.
Open Scope string_scope.
Open Scope list_scope.

(** ** JavaScript values and string primitives used by the pages *)

Module Js.

(** A [string | null | undefined] cell: [None] stands for [null] and
    [undefined], which the pages never tell apart. *)
Definition nullable := option string.

(** [Boolean(s)] for a string: the empty string is falsy. *)
Definition truthy_string (s : string) : bool :=
  match s with
  | EmptyString => false
  | String _ _ => true
  end.

(** [Boolean(v)] for a nullable string. *)
Definition truthy (v : nullable) : bool :=
  match v with
  | None => false
  | Some s => truthy_string s
  end.

(** [a || b] where [a] is a string. *)
Definition or_string (a b : string) : string :=
  if truthy_string a then a else b.

(** [a || b] where [a] is a nullable string. *)
Definition or_default (a : nullable) (b : string) : string :=
  match a with
  | Some s => or_string s b
  | None => b
  end.

(** [s.startsWith(p)]. *)
Definition startsWith (s p : string) : bool := String.prefix p s.

(** [s.split(sep)] for a one-character separator. *)
Fixpoint split (sep : ascii) (s : string) : list string :=
  match s with
  | EmptyString => [EmptyString]
  | String c r =>
      if Ascii.eqb c sep then EmptyString :: split sep r
      else match split sep r with
           | h :: t => String c h :: t
           | [] => [String c EmptyString]
           end
  end.

(** [arr[i]]: [undefined] out of range. *)
Definition index (arr : list string) (i : nat) : nullable := nth_error arr i.

(** The white space and line terminators that [String.prototype.trim]
    removes.  A string is held as the bytes of its UTF-8 encoding, so a
    character is one, two or three bytes here.

    One byte: U+0009 to U+000D and U+0020. *)
Definition is_space (c : ascii) : bool :=
  match nat_of_ascii c with
  | 9 | 10 | 11 | 12 | 13 | 32 => true
  | _ => false
  end.

(** Two bytes: U+00A0 (C2 A0). *)
Definition is_space2 (c1 c2 : ascii) : bool :=
  (nat_of_ascii c1 =? 194)%nat && (nat_of_ascii c2 =? 160)%nat.

(** Three bytes: U+1680 (E1 9A 80), U+2000 to U+200A (E2 80 80 to 8A),
    U+2028, U+2029 (E2 80 A8, A9), U+202F (E2 80 AF), U+205F (E2 81 9F),
    U+3000 (E3 80 80) and U+FEFF (EF BB BF). *)
Definition is_space3 (c1 c2 c3 : ascii) : bool :=
  let a := nat_of_ascii c1 in
  let b := nat_of_ascii c2 in
  let c := nat_of_ascii c3 in
  ((a =? 225) && (b =? 154) && (c =? 128)
   || (a =? 226) && (b =? 128)
      && ((128 <=? c) && (c <=? 138) || (c =? 168) || (c =? 169) || (c =? 175))
   || (a =? 226) && (b =? 129) && (c =? 159)
   || (a =? 227) && (b =? 128) && (c =? 128)
   || (a =? 239) && (b =? 187) && (c =? 191))%nat.

(** Every character of [s] is white space. *)
Fixpoint blank (s : string) : bool :=
  match s with
  | EmptyString => true
  | String c1 r1 =>
      if is_space c1 then blank r1
      else match r1 with
           | String c2 r2 =>
               if is_space2 c1 c2 then blank r2
               else match r2 with
                    | String c3 r3 => is_space3 c1 c2 c3 && blank r3
                    | EmptyString => false
                    end
           | EmptyString => false
           end
  end.

Fixpoint trimStart (s : string) : string :=
  match s with
  | EmptyString => EmptyString
  | String c1 r1 =>
      if is_space c1 then trimStart r1
      else match r1 with
           | String c2 r2 =>
               if is_space2 c1 c2 then trimStart r2
               else match r2 with
                    | String c3 r3 =>
                        if is_space3 c1 c2 c3 then trimStart r3 else s
                    | EmptyString => s
                    end
           | EmptyString => s
           end
  end.

(** What is left when the longest white-space suffix is cut off: a byte is
    kept as long as what starts at it is not all white space.  No
    continuation byte opens a white-space character, so on UTF-8 text the
    cut falls between characters. *)
Fixpoint trimEnd (s : string) : string :=
  match s with
  | EmptyString => EmptyString
  | String c r => if blank s then EmptyString else String c (trimEnd r)
  end.

(** [s.trim()]. *)
Definition trim (s : string) : string := trimEnd (trimStart s).

(** Does character [c] occur in [s]? *)
Fixpoint occurs (c : ascii) (s : string) : bool :=
  match s with
  | EmptyString => false
  | String d r => Ascii.eqb d c || occurs c r
  end.

(** [c.toLowerCase()] for one character, on the ASCII range. *)
Definition lower_char (c : ascii) : ascii :=
  let n := nat_of_ascii c in
  if (65 <=? n)%nat && (n <=? 90)%nat then ascii_of_nat (n + 32) else c.

(** [s.toLowerCase()], on the ASCII range. *)
Fixpoint toLowerCase (s : string) : string :=
  match s with
  | EmptyString => EmptyString
  | String c r => String (lower_char c) (toLowerCase r)
  end.

(** [s.includes(sub)]. *)
Fixpoint includes (s sub : string) : bool :=
  String.prefix sub s
  || match s with
     | EmptyString => false
     | String _ r => includes r sub
     end.

End Js.

(** ** Files and [FileReader.readAsDataURL] *)

Module Base64.

Definition alphabet : list ascii :=
  list_ascii_of_string
    "ABCDEFGHIJKLMNOPQRSTUVWXYZabcdefghijklmnopqrstuvwxyz0123456789+/".

Definition pad : ascii := "="%char.

(** The character of the low six bits of [n]. *)
Definition sextet (n : N) : ascii :=
  nth (N.to_nat (N.land n 63)) alphabet pad.

Definition quad (n : N) (keep : nat) : string :=
  let c0 := sextet (N.shiftr n 18) in
  let c1 := sextet (N.shiftr n 12) in
  let c2 := if (2 <=? keep)%nat then sextet (N.shiftr n 6) else pad in
  let c3 := if (3 <=? keep)%nat then sextet n else pad in
  String c0 (String c1 (String c2 (String c3 EmptyString))).

Definition group (a b c : byte) : N :=
  N.lor (N.shiftl (Byte.to_N a) 16)
        (N.lor (N.shiftl (Byte.to_N b) 8) (Byte.to_N c)).

(** RFC 4648 base64 with padding, as the browser emits it in a data URL. *)
Fixpoint encode (bs : list byte) : string :=
  match bs with
  | [] => EmptyString
  | [a] => quad (group a x00 x00) 1
  | [a; b] => quad (group a b x00) 2
  | a :: b :: c :: rest => quad (group a b c) 3 ++ encode rest
  end.

(** The characters base64 text is made of. *)
Definition base64_char (c : ascii) : Prop :=
  In c alphabet \/ c = pad.

Definition base64_string (s : string) : Prop :=
  forall c, Js.occurs c s = true -> base64_char c.

End Base64.

(** A file handed over by an [<input type="file">] change event. *)
Record File := mkFile {
  type : string;          (* file.type, the MIME type the browser reports *)
  bytes : list byte       (* the content *)
}.

(** The string a successful [reader.readAsDataURL(file)] leaves in
    [reader.result]. *)
Definition readAsDataURL (file : File) : string :=
  "data:" ++ type file ++ ";base64," ++ Base64.encode (bytes file).

(** What [reader.result] holds when [onloadend] fires: the data URL, or
    [null] when the read failed ([onloadend] fires in both cases). *)
Definition reader_result (file : File) (ok : bool) : Js.nullable :=
  if ok then Some (readAsDataURL file) else None.

(** ** [pages/HomePage.jsx]: the one-shot diagnosis page *)

Module Home.

(** The body of a successful [POST /api/predict] response. *)
Record Prediction := mkPrediction {
  disease_name : string;
  confidence : nat;
  description : string;
  treatments : list string;
  prevention_tips : list string
}.

(** The three [useState] cells of the component. *)
Record State := mkState {
  selectedImage : Js.nullable;
  isLoading : bool;
  prediction : option Prediction
}.

Definition initial : State := mkState None false None.

Definition setSelectedImage (v : Js.nullable) (s : State) : State :=
  mkState v (isLoading s) (prediction s).

Definition setIsLoading (v : bool) (s : State) : State :=
  mkState (selectedImage s) v (prediction s).

Definition setPrediction (v : option Prediction) (s : State) : State :=
  mkState (selectedImage s) (isLoading s) v.

(** The JSON body of the diagnosis request. *)
Record PredictBody := mkPredictBody {
  image_base64 : Js.nullable
}.

Inductive Effect :=
| toast_error (msg : string)
| toast_success (msg : string)
| console_error (label : string)
| read_file (file : File)            (* reader.readAsDataURL(file) *)
| post_predict (body : PredictBody). (* axios.post(`${API}/predict`, body) *)

(** The rejection value of the axios promise, as far as the page reads it. *)
Record ErrorData := mkErrorData { detail : Js.nullable }.
Record ErrorResponse := mkErrorResponse { data : option ErrorData }.
Record AxiosError := mkAxiosError { response : option ErrorResponse }.

(** [error.response?.data?.detail] *)
Definition error_detail (error : AxiosError) : Js.nullable :=
  match response error with
  | None => None
  | Some r => match data r with
              | None => None
              | Some d => detail d
              end
  end.

(** [handleImageSelect], up to the start of the read; the argument is
    [e.target.files[0]]. *)
Definition handleImageSelect (file : option File) (s : State)
  : State * list Effect :=
  match file with
  | Some file =>
      if negb (Js.startsWith (type file) "image/")
      then (s, [toast_error "Please select a valid image file"])
      else (s, [read_file file])
  | None => (s, [])
  end.

(** [reader.onloadend], with [reader.result] as argument. *)
Definition reader_onloadend (result : Js.nullable) (s : State) : State :=
  setSelectedImage result s.

(** [analyzeImage], up to the [await] on [axios.post].  The guard has
    excluded [null] where [split] is called. *)
Definition analyzeImage (s : State) : State * list Effect :=
  if negb (Js.truthy (selectedImage s))
  then (s, [toast_error "Please select an image first"])
  else
    let base64Data :=
      match selectedImage s with
      | Some img => Js.index (Js.split ","%char img) 1
      | None => None
      end in
    (setIsLoading true s, [post_predict (mkPredictBody base64Data)]).

(** [analyzeImage] after the [await], when the request succeeded: the rest
    of the [try] block, then [finally]. *)
Definition analyzeImage_fulfilled (response_data : Prediction) (s : State)
  : State * list Effect :=
  (setIsLoading false (setPrediction (Some response_data) s),
   [toast_success "Analysis complete!"]).

(** [analyzeImage] after the [await], when the request failed: [catch],
    then [finally]. *)
Definition analyzeImage_rejected (error : AxiosError) (s : State)
  : State * list Effect :=
  (setIsLoading false s,
   [console_error "Error analyzing image:";
    toast_error (Js.or_default (error_detail error) "Failed to analyze image")]).

Definition resetAnalysis (s : State) : State :=
  setPrediction None (setSelectedImage None s).

(** *** What the render shows *)

(** [!prediction ? <upload area and buttons> : <results>] *)
Definition results_shown (s : State) : bool :=
  match prediction s with Some _ => true | None => false end.

(** [disabled={!selectedImage || isLoading}] on the analyze button. *)
Definition analyze_disabled (s : State) : bool :=
  negb (Js.truthy (selectedImage s)) || isLoading s.

(** [{selectedImage && <Button onClick={resetAnalysis}>}] *)
Definition reset_shown (s : State) : bool := Js.truthy (selectedImage s).

(** *** The page with its pending reads and requests *)

Record World := mkWorld {
  st : State;
  reads : list File;          (* FileReaders whose [onloadend] is still due *)
  posts : list PredictBody;   (* requests whose promise has not settled *)
  log : list Effect           (* every effect so far, oldest first *)
}.

Definition boot : World := mkWorld initial [] [] [].

Definition started_reads (effs : list Effect) : list File :=
  flat_map (fun e => match e with read_file f => [f] | _ => [] end) effs.

Definition started_posts (effs : list Effect) : list PredictBody :=
  flat_map (fun e => match e with post_predict b => [b] | _ => [] end) effs.

(** Commit a handler's result: the new state, and its effects started. *)
Definition commit (w : World) (r : State * list Effect) : World :=
  mkWorld (fst r)
          (reads w ++ started_reads (snd r))
          (posts w ++ started_posts (snd r))
          (log w ++ snd r).

Definition remove_at {A} (i : nat) (l : list A) : list A :=
  firstn i l ++ skipn (S i) l.

Inductive Event :=
| change_file (file : option File)   (* [onChange] of the file input *)
| loadend (i : nat) (ok : bool)      (* pending read [i] ends *)
| click_analyze
| click_reset                        (* "Reset" or "Scan Another Leaf" *)
| predict_fulfilled (i : nat) (response_data : Prediction)
| predict_rejected (i : nat) (error : AxiosError).

(** One event.  A control that is not rendered or is disabled does not
    fire; an index that names no pending operation changes nothing. *)
Definition step (w : World) (ev : Event) : World :=
  match ev with
  | change_file file =>
      if results_shown (st w) then w
      else commit w (handleImageSelect file (st w))
  | loadend i ok =>
      match nth_error (reads w) i with
      | Some file =>
          mkWorld (reader_onloadend (reader_result file ok) (st w))
                  (remove_at i (reads w)) (posts w) (log w)
      | None => w
      end
  | click_analyze =>
      if results_shown (st w) || analyze_disabled (st w) then w
      else commit w (analyzeImage (st w))
  | click_reset =>
      if results_shown (st w) || reset_shown (st w)
      then mkWorld (resetAnalysis (st w)) (reads w) (posts w) (log w)
      else w
  | predict_fulfilled i response_data =>
      match nth_error (posts w) i with
      | Some _ =>
          commit (mkWorld (st w) (reads w) (remove_at i (posts w)) (log w))
                 (analyzeImage_fulfilled response_data (st w))
      | None => w
      end
  | predict_rejected i error =>
      match nth_error (posts w) i with
      | Some _ =>
          commit (mkWorld (st w) (reads w) (remove_at i (posts w)) (log w))
                 (analyzeImage_rejected error (st w))
      | None => w
      end
  end.

Definition run (w : World) (evs : list Event) : World := fold_left step evs w.

(** The number of diagnosis requests in an effect log. *)
Definition count_posts (effs : list Effect) : nat :=
  length (started_posts effs).

(** *** The controller states of the specification, read off the cells

    The page keeps no error cell: a failure is a toast, and the state a
    failed request leaves is the one it was submitted from, so [Failed]
    is [Ready] with an error toast in the log. *)
Inductive Phase := Idle | Ready | Pending | Resolved.

Definition phase (s : State) : Phase :=
  if isLoading s then Pending
  else if results_shown s then Resolved
  else if Js.truthy (selectedImage s) then Ready
  else Idle.

(** The loading flag tells exactly whether a request is pending. *)
Definition flag_counts_posts (w : World) : Prop :=
  length (posts w) = if isLoading (st w) then 1 else 0.

(** *** Where selections and payloads come from *)

(** The file passes the check of [handleImageSelect]. *)
Definition image_file (f : File) : Prop :=
  Js.startsWith (type f) "image/" = true.

(** The files handed over by the change events of a trace. *)
Definition chosen (evs : list Event) : list File :=
  flat_map (fun ev => match ev with
                      | change_file (Some f) => [f]
                      | _ => []
                      end) evs.

(** A selection cell: [null], or the data URL of a file in [P]. *)
Definition selection_of (P : File -> Prop) (v : Js.nullable) : Prop :=
  v = None \/ exists f, P f /\ v = Some (readAsDataURL f).

(** A request body cut from the data URL of a file in [P]. *)
Definition payload_of (P : File -> Prop) (b : PredictBody) : Prop :=
  exists f, P f
            /\ image_base64 b
               = Js.index (Js.split ","%char (readAsDataURL f)) 1.

Definition provenance (P : File -> Prop) (w : World) : Prop :=
  Forall P (reads w)
  /\ selection_of P (selectedImage (st w))
  /\ Forall (payload_of P) (started_posts (log w)).

(** The clicks on the analyze button in a trace. *)
Definition analyze_clicks (evs : list Event) : nat :=
  length (filter (fun ev => match ev with
                            | click_analyze => true
                            | _ => false
                            end) evs).

End Home.

(** ** [pages/ChatPage.jsx]: the plant-care chat page *)

Module Chat.

Inductive Role := user | assistant.

(** An entry of [messages].  [aiMessage] is built without an
    [image_base64] key, which reads back as [undefined]. *)
Record ChatMessage := mkChatMessage {
  role : Role;
  message : string;
  image_base64 : Js.nullable;
  timestamp : string
}.

(** The [useState] cells of the component. *)
Record State := mkState {
  messages : list ChatMessage;
  inputMessage : string;
  isLoading : bool;
  sessionId : string;
  selectedImage : Js.nullable
}.

(** The first render; [sessionId] is [`session_${Date.now()}`]. *)
Definition initial (sessionId : string) : State :=
  mkState [] "" false sessionId None.

Definition setMessages (f : list ChatMessage -> list ChatMessage) (s : State)
  : State :=
  mkState (f (messages s)) (inputMessage s) (isLoading s) (sessionId s)
          (selectedImage s).

Definition setInputMessage (v : string) (s : State) : State :=
  mkState (messages s) v (isLoading s) (sessionId s) (selectedImage s).

Definition setIsLoading (v : bool) (s : State) : State :=
  mkState (messages s) (inputMessage s) v (sessionId s) (selectedImage s).

Definition setSelectedImage (v : Js.nullable) (s : State) : State :=
  mkState (messages s) (inputMessage s) (isLoading s) (sessionId s) v.

(** The JSON body of [POST /api/chat]. *)
Module Request.
Record t := mk {
  session_id : string;
  message : string;
  image_base64 : Js.nullable
}.
End Request.

Inductive Effect :=
| toast_error (msg : string)
| console_error (label : string)
| read_file (file : File)                (* reader.readAsDataURL(file) *)
| get_history (sessionId : string)       (* axios.get(`${API}/chat/history/${sessionId}`) *)
| post_chat (body : Request.t).          (* axios.post(`${API}/chat`, body) *)

(** [loadHistory] of the mount effect, after its [await]. *)
Definition loadHistory_fulfilled (response_data : list ChatMessage) (s : State)
  : State * list Effect :=
  (setMessages (fun _ => response_data) s, []).

Definition loadHistory_rejected (s : State) : State * list Effect :=
  (s, [console_error "Error loading chat history:"]).

(** [handleImageSelect], up to the start of the read; the argument is
    [e.target.files[0]]. *)
Definition handleImageSelect (file : option File) (s : State)
  : State * list Effect :=
  match file with
  | Some file =>
      if negb (Js.startsWith (type file) "image/")
      then (s, [toast_error "Please select a valid image file"])
      else (s, [read_file file])
  | None => (s, [])
  end.

(** [reader.onloadend], with [reader.result] as argument. *)
Definition reader_onloadend (result : Js.nullable) (s : State) : State :=
  setSelectedImage result s.

(** [sendMessage], up to the [await] on [axios.post]; [now] is
    [new Date().toISOString()].  [inputMessage] and [selectedImage] are the
    values of the render the handler closes over, so the setters before the
    request do not change what the request carries. *)
Definition sendMessage (now : string) (s : State) : State * list Effect :=
  if negb (Js.truthy_string (Js.trim (inputMessage s)))
     && negb (Js.truthy (selectedImage s))
  then (s, [])
  else
    let userMessage :=
      mkChatMessage user (inputMessage s) (selectedImage s) now in
    let s1 := setMessages (fun prev => prev ++ [userMessage]) s in
    let s2 := setInputMessage "" s1 in
    let imageToSend := selectedImage s in
    let s3 := setSelectedImage None s2 in
    let s4 := setIsLoading true s3 in
    let base64Data :=
      if Js.truthy imageToSend
      then match imageToSend with
           | Some img => Js.index (Js.split ","%char img) 1
           | None => None
           end
      else None in
    (s4,
     [post_chat
        (Request.mk (sessionId s)
                    (Js.or_string (inputMessage s) "Please analyze this image")
                    base64Data)]).

(** [sendMessage] after the [await], when the request succeeded;
    [response_text] is [response.data.response]. *)
Definition sendMessage_fulfilled (response_text now : string) (s : State)
  : State * list Effect :=
  let aiMessage := mkChatMessage assistant response_text None now in
  (setIsLoading false (setMessages (fun prev => prev ++ [aiMessage]) s), []).

(** [sendMessage] after the [await], when the request failed. *)
Definition sendMessage_rejected (s : State) : State * list Effect :=
  (setIsLoading false s,
   [console_error "Error sending message:";
    toast_error "Failed to send message"]).

(** [handleKeyPress] on the text input. *)
Definition handleKeyPress (key : string) (shiftKey : bool) (now : string)
  (s : State) : State * list Effect :=
  if String.eqb key "Enter" && negb shiftKey
  then sendMessage now s
  else (s, []).

(** *** What the render shows *)

(** [disabled={(!inputMessage.trim() && !selectedImage) || isLoading}] on
    the send button. *)
Definition send_disabled (s : State) : bool :=
  (negb (Js.truthy_string (Js.trim (inputMessage s)))
   && negb (Js.truthy (selectedImage s)))
  || isLoading s.

(** The [src] of the image of a message bubble, when one is rendered:
    [{msg.image_base64 && <img src={`data:image/jpeg;base64,${msg.image_base64}`}/>}] *)
Definition img_src (msg : ChatMessage) : option string :=
  match image_base64 msg with
  | Some b => if Js.truthy_string b
              then Some ("data:image/jpeg;base64," ++ b)%string
              else None
  | None => None
  end.

(** *** The page with its pending reads and requests *)

Record World := mkWorld {
  st : State;
  history_due : bool;         (* the mount effect's GET has not settled *)
  reads : list File;          (* FileReaders whose [onloadend] is still due *)
  posts : list Request.t;     (* chat requests whose promise has not settled *)
  log : list Effect           (* every effect so far, oldest first *)
}.

(** After the first render and its mount effect. *)
Definition boot (sessionId : string) : World :=
  mkWorld (initial sessionId) true [] [] [get_history sessionId].

Definition started_reads (effs : list Effect) : list File :=
  flat_map (fun e => match e with read_file f => [f] | _ => [] end) effs.

Definition started_posts (effs : list Effect) : list Request.t :=
  flat_map (fun e => match e with post_chat b => [b] | _ => [] end) effs.

Definition commit (w : World) (r : State * list Effect) : World :=
  mkWorld (fst r) (history_due w)
          (reads w ++ started_reads (snd r))
          (posts w ++ started_posts (snd r))
          (log w ++ snd r).

Definition remove_at {A} (i : nat) (l : list A) : list A :=
  firstn i l ++ skipn (S i) l.

Inductive Event :=
| history_fulfilled (response_data : list ChatMessage)
| history_rejected
| input_change (value : string)      (* [onChange] of the text input *)
| change_file (file : option File)   (* [onChange] of the file input *)
| loadend (i : nat) (ok : bool)      (* pending read [i] ends *)
| click_remove_image                 (* the cross on the thumbnail *)
| click_send (now : string)
| key_press (key : string) (shiftKey : bool) (now : string)
| chat_fulfilled (i : nat) (response_text now : string)
| chat_rejected (i : nat).

(** One event.  The text input and the file input are always rendered and
    never disabled; the send button is disabled by [send_disabled]. *)
Definition step (w : World) (ev : Event) : World :=
  match ev with
  | history_fulfilled response_data =>
      if history_due w
      then mkWorld (fst (loadHistory_fulfilled response_data (st w))) false
                   (reads w) (posts w) (log w)
      else w
  | history_rejected =>
      if history_due w
      then mkWorld (st w) false (reads w) (posts w)
                   (log w ++ snd (loadHistory_rejected (st w)))
      else w
  | input_change value =>
      mkWorld (setInputMessage value (st w)) (history_due w) (reads w)
              (posts w) (log w)
  | change_file file => commit w (handleImageSelect file (st w))
  | loadend i ok =>
      match nth_error (reads w) i with
      | Some file =>
          mkWorld (reader_onloadend (reader_result file ok) (st w))
                  (history_due w) (remove_at i (reads w)) (posts w) (log w)
      | None => w
      end
  | click_remove_image =>
      if Js.truthy (selectedImage (st w))
      then mkWorld (setSelectedImage None (st w)) (history_due w) (reads w)
                   (posts w) (log w)
      else w
  | click_send now =>
      if send_disabled (st w) then w
      else commit w (sendMessage now (st w))
  | key_press key shiftKey now =>
      commit w (handleKeyPress key shiftKey now (st w))
  | chat_fulfilled i response_text now =>
      match nth_error (posts w) i with
      | Some _ =>
          commit (mkWorld (st w) (history_due w) (reads w)
                          (remove_at i (posts w)) (log w))
                 (sendMessage_fulfilled response_text now (st w))
      | None => w
      end
  | chat_rejected i =>
      match nth_error (posts w) i with
      | Some _ =>
          commit (mkWorld (st w) (history_due w) (reads w)
                          (remove_at i (posts w)) (log w))
                 (sendMessage_rejected (st w))
      | None => w
      end
  end.

Definition run (w : World) (evs : list Event) : World := fold_left step evs w.

(** *** Serialized sends

    One round trip of the page: the user fills the composer, sends, and
    the request settles before anything else happens. *)
Inductive Outcome :=
| replied (response_text now : string)
| failed.

Record Send := mkSend {
  text : string;             (* what the user types *)
  attachment : option File;  (* the file the user attaches, if any *)
  by_enter : bool;           (* sent with Enter, not with the button *)
  sent_at : string;          (* the clock when [sendMessage] runs *)
  outcome : Outcome
}.

(** The events of one round trip, in order. *)
Definition round_trip (x : Send) : list Event :=
  [input_change (text x)]
  ++ match attachment x with
     | Some f => [change_file (Some f); loadend 0 true]
     | None => []
     end
  ++ [if by_enter x then key_press "Enter" false (sent_at x)
      else click_send (sent_at x);
      match outcome x with
      | replied response_text now => chat_fulfilled 0 response_text now
      | failed => chat_rejected 0
      end].

Definition serial (xs : list Send) : list Event := flat_map round_trip xs.

(** The selection the attachment of a send leaves in the composer: a file
    that [handleImageSelect] refuses leaves none. *)
Definition attached (x : Send) : Js.nullable :=
  match attachment x with
  | Some f => if Js.startsWith (type f) "image/"
              then Some (readAsDataURL f)
              else None
  | None => None
  end.

(** [sendMessage] goes past its guard on this composer content. *)
Definition sendable (x : Send) : bool :=
  Js.truthy_string (Js.trim (text x)) || Js.truthy (attached x).

(** The entries a round trip is expected to leave in [messages]. *)
Definition user_entry (x : Send) : ChatMessage :=
  mkChatMessage user (text x) (attached x) (sent_at x).

Definition entries (x : Send) : list ChatMessage :=
  user_entry x ::
  match outcome x with
  | replied response_text now => [mkChatMessage assistant response_text None now]
  | failed => []
  end.

(** The history request has settled, nothing is pending and the composer
    holds no attachment. *)
Definition quiet (w : World) : Prop :=
  history_due w = false /\ reads w = [] /\ posts w = []
  /\ isLoading (st w) = false /\ selectedImage (st w) = None.

(** *** Predicates on worlds and traces *)

(** The loading flag tells exactly whether a request is pending. *)
Definition flag_counts_posts (w : World) : Prop :=
  length (posts w) = if isLoading (st w) then 1 else 0.

(** The event is a key press that [handleKeyPress] turns into a send. *)
Definition key_sends (ev : Event) : bool :=
  match ev with
  | key_press key shiftKey _ => String.eqb key "Enter" && negb shiftKey
  | _ => false
  end.

(** The session ids of the history requests in an effect log. *)
Definition started_gets (effs : list Effect) : list string :=
  flat_map (fun e => match e with get_history sid => [sid] | _ => [] end) effs.

(** The page still talks about the session it was created with. *)
Definition session_kept (sid : string) (w : World) : Prop :=
  sessionId (st w) = sid
  /\ Forall (fun b => Request.session_id b = sid) (started_posts (log w))
  /\ started_gets (log w) = [sid].

(** The file passes the check of [handleImageSelect]. *)
Definition image_file (f : File) : Prop :=
  Js.startsWith (type f) "image/" = true.

(** The files handed over by the change events of a trace. *)
Definition chosen (evs : list Event) : list File :=
  flat_map (fun ev => match ev with
                      | change_file (Some f) => [f]
                      | _ => []
                      end) evs.

(** A selection cell: [null], or the data URL of a file in [P]. *)
Definition selection_of (P : File -> Prop) (v : Js.nullable) : Prop :=
  v = None \/ exists f, P f /\ v = Some (readAsDataURL f).

(** A request body with no image, or one cut from the data URL of a file
    in [P]. *)
Definition payload_of (P : File -> Prop) (b : Request.t) : Prop :=
  Request.image_base64 b = None
  \/ exists f, P f
               /\ Request.image_base64 b
                  = Js.index (Js.split ","%char (readAsDataURL f)) 1.

Definition provenance (P : File -> Prop) (w : World) : Prop :=
  Forall P (reads w)
  /\ selection_of P (selectedImage (st w))
  /\ Forall (payload_of P) (started_posts (log w)).

(** Where an entry of [messages] can come from, given the events so far:
    the history response, a send of the user, or a reply of the service. *)
Definition message_origin (evs : list Event) (m : ChatMessage) : Prop :=
  (exists response_data,
      In (history_fulfilled response_data) evs /\ In m response_data)
  \/ (role m = user
      /\ (In (click_send (timestamp m)) evs
          \/ exists key shiftKey,
               In (key_press key shiftKey (timestamp m)) evs))
  \/ (exists i response_text now,
        In (chat_fulfilled i response_text now) evs
        /\ m = mkChatMessage assistant response_text None now).

End Chat.

(** ** [pages/HistoryPage.jsx]: the list of past diagnoses *)

Module History.

(** A record of [GET /api/predictions], as far as the page reads it. *)
Record Prediction := mkPrediction {
  id : string;
  disease_name : string;
  confidence : nat;
  description : string;
  timestamp : string
}.

(** The [useState] cells of the component. *)
Record State := mkState {
  predictions : list Prediction;
  isLoading : bool
}.

Definition initial : State := mkState [] true.

Definition setPredictions (v : list Prediction) (s : State) : State :=
  mkState v (isLoading s).

Definition setIsLoading (v : bool) (s : State) : State :=
  mkState (predictions s) v.

Inductive Effect :=
| get_predictions                    (* axios.get(`${API}/predictions`) *)
| console_error (label : string)
| toast_error (msg : string).

(** [loadHistory] after its [await], when the request succeeded: the rest
    of the [try] block, then [finally]. *)
Definition loadHistory_fulfilled (response_data : list Prediction) (s : State)
  : State * list Effect :=
  (setIsLoading false (setPredictions response_data s), []).

(** [loadHistory] after its [await], when the request failed: [catch],
    then [finally]. *)
Definition loadHistory_rejected (s : State) : State * list Effect :=
  (setIsLoading false s,
   [console_error "Error loading history:";
    toast_error "Failed to load history"]).

(** *** What the render shows *)

Inductive Icon := CheckCircle2 | AlertTriangle.

(** [prediction.disease_name.toLowerCase().includes('healthy') ? ... : ...] *)
Definition icon (prediction : Prediction) : Icon :=
  if Js.includes (Js.toLowerCase (disease_name prediction)) "healthy"
  then CheckCircle2
  else AlertTriangle.

(** [formatDate(dateString)].  [format] stands for what the browser makes
    of [new Intl.DateTimeFormat('en-IN', {...}).format(new Date(dateString))]:
    the formatted text, or [None] when [dateString] does not parse, the
    [Date] is invalid and [format] throws [RangeError]. *)
Definition formatDate (format : string -> option string) (dateString : string)
  : option string :=
  format dateString.

(** One card of the list. *)
Record Card := mkCard {
  key : string;
  mark : Icon;
  title : string;
  date : string;
  badge : nat;
  body : string
}.

(** The card of one record; [None] when [formatDate] throws. *)
Definition card (format : string -> option string) (prediction : Prediction)
  : option Card :=
  match formatDate format (timestamp prediction) with
  | Some d =>
      Some (mkCard (id prediction) (icon prediction) (disease_name prediction)
                   d (confidence prediction) (description prediction))
  | None => None
  end.

(** [predictions.map(...)]: the cards in order; [None] when building one of
    them throws. *)
Fixpoint cards_of (format : string -> option string) (ps : list Prediction)
  : option (list Card) :=
  match ps with
  | [] => Some []
  | p :: rest =>
      match card format p with
      | Some c => match cards_of format rest with
                  | Some cs => Some (c :: cs)
                  | None => None
                  end
      | None => None
      end
  end.

Inductive View :=
| spinner                      (* "Loading history..." *)
| no_scans                     (* "No Scans Yet" *)
| cards (items : list Card)
| render_throws.               (* the render ends in an exception *)

(** [isLoading ? ... : predictions.length === 0 ? ... : predictions.map(...)] *)
Definition render (format : string -> option string) (s : State) : View :=
  if isLoading s then spinner
  else if Nat.eqb (length (predictions s)) 0 then no_scans
  else match cards_of format (predictions s) with
       | Some items => cards items
       | None => render_throws
       end.

(** *** The page with its pending request *)

Record World := mkWorld {
  st : State;
  due : bool;            (* the mount effect's GET has not settled *)
  log : list Effect
}.

(** After the first render and its mount effect, which calls
    [loadHistory] once. *)
Definition boot : World := mkWorld initial true [get_predictions].

Inductive Event :=
| history_fulfilled (response_data : list Prediction)
| history_rejected.

Definition step (w : World) (ev : Event) : World :=
  if due w then
    match ev with
    | history_fulfilled response_data =>
        mkWorld (fst (loadHistory_fulfilled response_data (st w))) false
                (log w ++ snd (loadHistory_fulfilled response_data (st w)))
    | history_rejected =>
        mkWorld (fst (loadHistory_rejected (st w))) false
                (log w ++ snd (loadHistory_rejected (st w)))
    end
  else w.

Definition run (w : World) (evs : list Event) : World := fold_left step evs w.

End History.

(** ** [components/Layout]: the bottom navigation *)

Module Layout.

Inductive Icon := Sprout | MessageCircle | History.

Record NavItem := mkNavItem {
  path : string;
  icon : Icon;
  label : string
}.

Definition navItems : list NavItem :=
  [mkNavItem "/" Sprout "Scan";
   mkNavItem "/chat" MessageCircle "Chat";
   mkNavItem "/history" History "History"].

(** [location.pathname === item.path] *)
Definition isActive (pathname : string) (item : NavItem) : bool :=
  String.eqb pathname (path item).

(** [`nav-${item.label.toLowerCase()}`] *)
Definition testid (item : NavItem) : string :=
  "nav-" ++ Js.toLowerCase (label item).

(** [onClick={() => navigate(item.path)}]: the pathname after the click. *)
Definition onClick (item : NavItem) (pathname : string) : string :=
  path item.

(** The items rendered as active at a location. *)
Definition active (pathname : string) : list NavItem :=
  filter (isActive pathname) navItems.

End Layout.

(** ** Notions taken from the specification's wording *)

Module Spec.

(** "The substring of [displayUri] following the first comma". *)
Fixpoint after_first (c : ascii) (s : string) : option string :=
  match s with
  | EmptyString => None
  | String d r => if Ascii.eqb d c then Some r else after_first c r
  end.

(** "No data-URI scheme metadata": none of the delimiters of the
    [data:<type>;base64,] prefix occurs. *)
Definition scheme_free (s : string) : bool :=
  negb (Js.occurs ":"%char s) && negb (Js.occurs ";"%char s)
  && negb (Js.occurs ","%char s).

(** "Transport form": a string that does not open with the URI scheme. *)
Definition transport_form (s : string) : bool :=
  negb (Js.startsWith s "data:").

(** The placeholder for an image sent without text, as the specification
    words it. *)
Definition placeholder : string := "please analyze this image".

End Spec.

(** ** Concrete inputs used by the examples *)

Module Sample.

(** A three-byte PNG-typed file ("Man"). *)
Definition leaf_png : File := mkFile "image/png" [x4d; x61; x6e].

(** A second image, two bytes ("AB"). *)
Definition leaf_jpg : File := mkFile "image/jpeg" [x41; x42].

Definition notes_pdf : File := mkFile "application/pdf" [x25; x50; x44; x46].

Definition blight : Home.Prediction :=
  Home.mkPrediction "Leaf Blight" 92 "..."
    ["Remove affected leaves"; "Apply fungicide"] ["Avoid overwatering"].

(** A page showing a result, with the image it was computed from. *)
Definition resolved : Home.State :=
  Home.mkState (Some (readAsDataURL leaf_png)) false (Some blight).

(** The diagnosis page showing a result while a read is still pending: the
    second file was chosen while the request was pending, and the response
    arrived before the read ended. *)
Definition resolved_reading : Home.World :=
  Home.run Home.boot
    [Home.change_file (Some leaf_png); Home.loadend 0 true;
     Home.click_analyze; Home.change_file (Some leaf_jpg);
     Home.predict_fulfilled 0 blight].

(** A page with an image selected and nothing submitted. *)
Definition ready : Home.State :=
  Home.mkState (Some (readAsDataURL leaf_png)) false None.

(** A failure whose body is [{ detail: "" }]. *)
Definition empty_detail : Home.AxiosError :=
  Home.mkAxiosError (Some (Home.mkErrorResponse (Some (Home.mkErrorData (Some ""))))).

(** A failure whose body is [{ detail: "Model unavailable" }]. *)
Definition with_detail : Home.AxiosError :=
  Home.mkAxiosError
    (Some (Home.mkErrorResponse (Some (Home.mkErrorData (Some "Model unavailable"))))).

(** A chat composer holding an image and no text. *)
Definition image_only : Chat.State :=
  Chat.mkState [] "" false "session_1" (Some (readAsDataURL leaf_png)).

(** A chat waiting for a reply while the user has typed again. *)
Definition awaiting : Chat.State :=
  Chat.mkState [Chat.mkChatMessage Chat.user "first" None "t1"]
               "second" true "session_1" None.

(** A stand-in for the browser's date formatting: ISO dates of 2025 are
    rendered by their day, anything else does not parse. *)
Definition format_2025 (dateString : string) : option string :=
  if Js.startsWith dateString "2025-" then Some "a day in 2025" else None.

(** Two round trips: a question that is answered, then an image sent
    without text whose request fails. *)
Definition conversation : list Chat.Send :=
  [Chat.mkSend "Why are the leaves yellow?" None false "t1"
               (Chat.replied "Likely overwatering." "t2");
   Chat.mkSend "" (Some leaf_png) true "t3" Chat.failed].

End Sample.

(** * Properties *)

(** ** Strings *)

Section StringFacts.

Variable sep : ascii.

Lemma occurs_append (a b : string) :
  Js.occurs sep (a ++ b) = Js.occurs sep a || Js.occurs sep b.
Proof.
  induction a as [|c a IH]; simpl; [reflexivity|].
  now rewrite IH, orb_assoc.
Qed.

Lemma split_nonempty (s : string) : Js.split sep s <> [].
Proof.
  induction s as [|c s IH]; simpl; [discriminate|].
  destruct (Ascii.eqb c sep); [discriminate|].
  destruct (Js.split sep s); [contradiction|discriminate].
Qed.

(** Without a separator, [split] returns the string itself. *)
Lemma split_without_sep (s : string) :
  Js.occurs sep s = false -> Js.split sep s = [s].
Proof.
  induction s as [|c s IH]; simpl; [reflexivity|].
  intros H. apply orb_false_iff in H as [Hc Hs].
  rewrite Hc, (IH Hs). reflexivity.
Qed.

(** The first piece is what precedes the first separator. *)
Lemma split_at_first_sep (pre rest : string) :
  Js.occurs sep pre = false ->
  Js.split sep (pre ++ String sep rest) = pre :: Js.split sep rest.
Proof.
  induction pre as [|c pre IH]; simpl.
  - intros _. now rewrite Ascii.eqb_refl.
  - intros H. apply orb_false_iff in H as [Hc Hp].
    rewrite Hc, (IH Hp). reflexivity.
Qed.

Lemma after_first_at_sep (pre rest : string) :
  Js.occurs sep pre = false ->
  Spec.after_first sep (pre ++ String sep rest) = Some rest.
Proof.
  induction pre as [|c pre IH]; simpl.
  - intros _. now rewrite Ascii.eqb_refl.
  - intros H. apply orb_false_iff in H as [Hc Hp].
    rewrite Hc. exact (IH Hp).
Qed.

End StringFacts.

Lemma append_assoc_string (a b c : string) : ((a ++ b) ++ c = a ++ (b ++ c))%string.
Proof. induction a as [|x a IH]; simpl; [reflexivity|now rewrite IH]. Qed.

(** ** Base64 output stays inside its alphabet *)

Lemma sextet_base64 (n : N) : Base64.base64_char (Base64.sextet n).
Proof.
  unfold Base64.sextet.
  destruct (nth_in_or_default (N.to_nat (N.land n 63)) Base64.alphabet Base64.pad)
    as [Hin | Hd]; [left; exact Hin | right; exact Hd].
Qed.

Lemma quad_base64 (n : N) (keep : nat) : Base64.base64_string (Base64.quad n keep).
Proof.
  intros c. unfold Base64.quad. cbv zeta. cbn [Js.occurs].
  rewrite orb_false_r, !orb_true_iff.
  intros [H | [H | [H | H]]]; apply Ascii.eqb_eq in H; subst c;
    try apply sextet_base64;
    match goal with
    | |- Base64.base64_char (if ?b then _ else _) =>
        destruct b; [apply sextet_base64 | right; reflexivity]
    end.
Qed.

Lemma base64_string_append (a b : string) :
  Base64.base64_string a -> Base64.base64_string b ->
  Base64.base64_string (a ++ b).
Proof.
  intros Ha Hb c. rewrite occurs_append, orb_true_iff.
  intros [H | H]; [apply Ha | apply Hb]; exact H.
Qed.

(** Induction three bytes at a time, the way [Base64.encode] consumes them. *)
Lemma triples_ind (P : list byte -> Prop) :
  P [] -> (forall a, P [a]) -> (forall a b, P [a; b]) ->
  (forall a b c rest, P rest -> P (a :: b :: c :: rest)) ->
  forall bs, P bs.
Proof.
  intros H0 H1 H2 H3.
  assert (H : forall bs, P bs /\ (forall a, P (a :: bs))
                         /\ (forall a b, P (a :: b :: bs))).
  { induction bs as [|x bs (IHa & IHb & IHc)].
    - repeat split; auto.
    - repeat split; auto. }
  intros bs. apply H.
Qed.

Lemma encode_base64 (bs : list byte) : Base64.base64_string (Base64.encode bs).
Proof.
  induction bs as [| a | a b | a b c rest IH] using triples_ind.
  - intros c H. discriminate H.
  - apply quad_base64.
  - apply quad_base64.
  - change (Base64.base64_string (Base64.quad (Base64.group a b c) 3 ++ Base64.encode rest)).
    apply base64_string_append; [apply quad_base64 | exact IH].
Qed.

Lemma base64_string_avoids (s : string) (c : ascii) :
  Base64.base64_string s -> ~ In c Base64.alphabet -> c <> Base64.pad ->
  Js.occurs c s = false.
Proof.
  intros Hs Hn Hp. destruct (Js.occurs c s) eqn:E; [|reflexivity].
  destruct (Hs c E) as [H | H]; contradiction.
Qed.

Ltac not_in_alphabet :=
  let H := fresh in
  intros H; cbv in H;
  repeat (destruct H as [H | H]; [discriminate H|]); exact H.

Lemma encode_scheme_free (bs : list byte) :
  Spec.scheme_free (Base64.encode bs) = true.
Proof.
  unfold Spec.scheme_free.
  rewrite !(base64_string_avoids _ _ (encode_base64 bs)); try reflexivity;
    try discriminate; not_in_alphabet.
Qed.

Lemma encode_comma_free (bs : list byte) :
  Js.occurs ","%char (Base64.encode bs) = false.
Proof.
  apply base64_string_avoids;
    [apply encode_base64 | not_in_alphabet | discriminate].
Qed.

(** ** The data URL of a file and its transport payload *)

Lemma data_url_shape (file : File) :
  readAsDataURL file
  = (("data:" ++ type file ++ ";base64")
       ++ String ","%char (Base64.encode (bytes file)))%string.
Proof.
  unfold readAsDataURL. simpl. f_equal.
  rewrite !append_assoc_string. reflexivity.
Qed.

Lemma data_url_prefix_comma_free (mime : string) :
  Js.occurs ","%char mime = false ->
  Js.occurs ","%char ("data:" ++ mime ++ ";base64") = false.
Proof.
  intros H. simpl. rewrite occurs_append, H. reflexivity.
Qed.

Lemma data_url_split (file : File) :
  Js.occurs ","%char (type file) = false ->
  Js.split ","%char (readAsDataURL file)
  = [("data:" ++ type file ++ ";base64")%string; Base64.encode (bytes file)].
Proof.
  intros H. rewrite data_url_shape.
  rewrite split_at_first_sep by (apply data_url_prefix_comma_free; exact H).
  rewrite split_without_sep by apply encode_comma_free.
  reflexivity.
Qed.

Lemma prefix_empty (s : string) : String.prefix "" s = true.
Proof. destruct s; reflexivity. Qed.

Lemma data_url_scheme (file : File) :
  Js.startsWith (readAsDataURL file) "data:" = true.
Proof.
  unfold Js.startsWith, readAsDataURL. simpl. apply prefix_empty.
Qed.

Lemma data_url_truthy (file : File) :
  Js.truthy (Some (readAsDataURL file)) = true.
Proof. reflexivity. Qed.

(** C8. For the data URL read from a file the pages accept (its type
    begins with [image/] and, being a MIME type, holds no comma), the
    selection cell receives that URL, and the payload
    [selectedImage.split(',')[1]] is exactly the substring of the URL after
    its first comma, namely the base64 text of the content; it holds none
    of the scheme's delimiters, and it is the [image_base64] field of the
    request body built by [analyzeImage] and by [sendMessage]. *)
Theorem transport_payload_is_base64_body (file : File) :
  Js.startsWith (type file) "image/" = true ->
  Js.occurs ","%char (type file) = false ->
  let displayUri := readAsDataURL file in
  let transportPayload := Js.index (Js.split ","%char displayUri) 1 in
  (forall s, Home.handleImageSelect (Some file) s = (s, [Home.read_file file])
             /\ Home.selectedImage
                  (Home.reader_onloadend (reader_result file true) s)
                = Some displayUri)
  /\ (forall s, Chat.handleImageSelect (Some file) s = (s, [Chat.read_file file])
                /\ Chat.selectedImage
                     (Chat.reader_onloadend (reader_result file true) s)
                   = Some displayUri)
  /\ transportPayload = Spec.after_first ","%char displayUri
  /\ transportPayload = Some (Base64.encode (bytes file))
  /\ Spec.scheme_free (Base64.encode (bytes file)) = true
  /\ (forall s, Home.selectedImage s = Some displayUri ->
                snd (Home.analyzeImage s)
                = [Home.post_predict (Home.mkPredictBody transportPayload)])
  /\ (forall now s, Chat.selectedImage s = Some displayUri ->
                    exists body,
                      snd (Chat.sendMessage now s) = [Chat.post_chat body]
                      /\ Chat.Request.image_base64 body = transportPayload).
Proof.
  intros Himg Hmime displayUri transportPayload.
  assert (Hpay : transportPayload = Some (Base64.encode (bytes file))).
  { unfold transportPayload, displayUri. now rewrite data_url_split. }
  repeat split.
  - unfold Home.handleImageSelect. now rewrite Himg.
  - unfold Chat.handleImageSelect. now rewrite Himg.
  - rewrite Hpay. unfold displayUri. rewrite data_url_shape.
    symmetry. apply after_first_at_sep.
    apply data_url_prefix_comma_free. exact Hmime.
  - exact Hpay.
  - apply encode_scheme_free.
  - intros s Hs. unfold Home.analyzeImage. rewrite Hs.
    unfold displayUri at 1. rewrite data_url_truthy. reflexivity.
  - intros now s Hs. unfold Chat.sendMessage. rewrite Hs.
    unfold displayUri at 1 2. rewrite data_url_truthy.
    rewrite andb_false_r. eexists. split; reflexivity.
Qed.

Lemma transport_payload_is_base64_body_witness :
  Js.index (Js.split ","%char (readAsDataURL Sample.leaf_png)) 1 = Some "TWFu"
  /\ snd (Home.analyzeImage Sample.ready)
     = [Home.post_predict (Home.mkPredictBody (Some "TWFu"))].
Proof.
  destruct (transport_payload_is_base64_body Sample.leaf_png
              eq_refl eq_refl) as (_ & _ & _ & Hpay & _ & Hpost & _).
  split.
  - exact Hpay.
  - exact (Hpost Sample.ready eq_refl).
Defined.

(** ** Files that are not images *)

(** C10. A file whose reported type does not begin with [image/] is
    refused by [handleImageSelect] on both pages with the error toast
    "Please select a valid image file": the state, and so the selection,
    is returned as it was, no read is started and no request is issued. *)
Theorem non_image_file_rejected (file : File) :
  Js.startsWith (type file) "image/" = false ->
  (forall s, Home.handleImageSelect (Some file) s
             = (s, [Home.toast_error "Please select a valid image file"]))
  /\ (forall s, Chat.handleImageSelect (Some file) s
                = (s, [Chat.toast_error "Please select a valid image file"]))
  /\ (forall w, let w' := Home.step w (Home.change_file (Some file)) in
                Home.st w' = Home.st w /\ Home.reads w' = Home.reads w
                /\ Home.posts w' = Home.posts w)
  /\ (forall w, let w' := Chat.step w (Chat.change_file (Some file)) in
                Chat.st w' = Chat.st w /\ Chat.reads w' = Chat.reads w
                /\ Chat.posts w' = Chat.posts w).
Proof.
  intros H.
  assert (Hh : forall s, Home.handleImageSelect (Some file) s
             = (s, [Home.toast_error "Please select a valid image file"])).
  { intros s. unfold Home.handleImageSelect. now rewrite H. }
  assert (Hc : forall s, Chat.handleImageSelect (Some file) s
             = (s, [Chat.toast_error "Please select a valid image file"])).
  { intros s. unfold Chat.handleImageSelect. now rewrite H. }
  split; [exact Hh|]. split; [exact Hc|]. split.
  - intros w. cbn [Home.step]. destruct (Home.results_shown (Home.st w)).
    + auto.
    + rewrite Hh. unfold Home.commit. simpl. rewrite !app_nil_r. auto.
  - intros w. cbn [Chat.step]. rewrite Hc. unfold Chat.commit. simpl.
    rewrite !app_nil_r. auto.
Qed.

Lemma non_image_file_rejected_witness :
  Home.handleImageSelect (Some Sample.notes_pdf) Sample.ready
  = (Sample.ready, [Home.toast_error "Please select a valid image file"]).
Proof.
  exact (proj1 (non_image_file_rejected Sample.notes_pdf eq_refl) Sample.ready).
Defined.

(** ** The diagnosis page: one request at a time *)

Section HomeInFlight.

Import Home.

Lemma boot_flag_counts_posts : flag_counts_posts boot.
Proof. reflexivity. Qed.

Lemma remove_at_length {A} (i : nat) (l : list A) (x : A) :
  nth_error l i = Some x -> length (remove_at i l) = pred (length l).
Proof.
  revert i. induction l as [|y l IH]; intros [|i] H; try discriminate H.
  - reflexivity.
  - unfold remove_at in *. simpl in *. rewrite (IH i H).
    destruct l; [destruct i; discriminate H | reflexivity].
Qed.

Lemma analyze_disabled_while_loading (s : State) :
  isLoading s = true -> analyze_disabled s = true.
Proof. intros H. unfold analyze_disabled. rewrite H. apply orb_true_r. Qed.

Lemma step_flag_counts_posts (w : World) (ev : Event) :
  flag_counts_posts w -> flag_counts_posts (step w ev).
Proof.
  unfold flag_counts_posts. intros Hw.
  destruct ev as [file | i ok | | | i p | i e]; cbn [step].
  - destruct (results_shown (st w)); [exact Hw|].
    destruct file as [file|]; unfold handleImageSelect, commit;
      [destruct (negb _)|]; simpl; rewrite ?app_nil_r; exact Hw.
  - destruct (nth_error (reads w) i); exact Hw.
  - destruct (results_shown (st w)); [exact Hw|]. simpl.
    unfold analyze_disabled.
    destruct (Js.truthy (selectedImage (st w))) eqn:Ht; [|exact Hw]. simpl.
    destruct (isLoading (st w)) eqn:Hl; [rewrite Hl; exact Hw|].
    unfold analyzeImage, commit. rewrite Ht. simpl.
    rewrite length_app, Hw. reflexivity.
  - destruct (results_shown (st w) || reset_shown (st w)); exact Hw.
  - destruct (nth_error (posts w) i) eqn:Hi; [|exact Hw].
    unfold commit. simpl. rewrite app_nil_r, (remove_at_length _ _ _ Hi), Hw.
    destruct (isLoading (st w)); reflexivity.
  - destruct (nth_error (posts w) i) eqn:Hi; [|exact Hw].
    unfold commit. simpl. rewrite app_nil_r, (remove_at_length _ _ _ Hi), Hw.
    destruct (isLoading (st w)); reflexivity.
Qed.

Lemma run_flag_counts_posts (evs : list Event) (w : World) :
  flag_counts_posts w -> flag_counts_posts (run w evs).
Proof.
  revert w. induction evs as [|ev evs IH]; intros w Hw; [exact Hw|].
  apply IH, step_flag_counts_posts, Hw.
Qed.

Lemma phase_ready (s : State) :
  phase s = Ready ->
  isLoading s = false /\ results_shown s = false
  /\ Js.truthy (selectedImage s) = true.
Proof.
  unfold phase.
  destruct (isLoading s), (results_shown s), (Js.truthy (selectedImage s));
    intros H; try discriminate H; auto.
Qed.

(** C1. In every state the page can reach, at most one diagnosis request
    is pending; while [isLoading] is set the analyze button is disabled, so
    a submit changes nothing; and two submits in a row from [Ready] leave
    one request pending and add exactly one [POST /api/predict] to the
    log.  A submit is a click on the analyze button, the only caller of
    [analyzeImage]. *)
Theorem home_single_flight (evs : list Event) :
  let w := run boot evs in
  length (posts w) <= 1
  /\ (isLoading (st w) = true -> step w click_analyze = w)
  /\ (phase (st w) = Ready ->
      let w2 := run w [click_analyze; click_analyze] in
      phase (st w2) = Pending
      /\ length (posts w2) = 1
      /\ count_posts (log w2) = S (count_posts (log w))).
Proof.
  intros w.
  assert (Hw : flag_counts_posts w)
    by (apply run_flag_counts_posts, boot_flag_counts_posts).
  split; [|split].
  - unfold flag_counts_posts in Hw. rewrite Hw.
    destruct (isLoading (st w)); lia.
  - intros Hl. cbn [step].
    rewrite (analyze_disabled_while_loading _ Hl), orb_true_r. reflexivity.
  - intros Hr. apply phase_ready in Hr as (Hl & Hres & Ht).
    unfold flag_counts_posts in Hw. rewrite Hl in Hw.
    cbn [run fold_left].
    assert (H1 : step w click_analyze = commit w (analyzeImage (st w))).
    { cbn [step]. unfold analyze_disabled. rewrite Hres, Ht, Hl. reflexivity. }
    rewrite H1.
    assert (Hl1 : isLoading (st (commit w (analyzeImage (st w)))) = true).
    { unfold analyzeImage. rewrite Ht. reflexivity. }
    assert (H2 : step (commit w (analyzeImage (st w))) click_analyze
                 = commit w (analyzeImage (st w))).
    { cbn [step]. rewrite (analyze_disabled_while_loading _ Hl1), orb_true_r.
      reflexivity. }
    rewrite H2. unfold analyzeImage. rewrite Ht. simpl.
    unfold phase, count_posts, started_posts. simpl.
    rewrite flat_map_app, !length_app, Hw. simpl. repeat split; lia.
Qed.

Lemma home_single_flight_witness :
  let w := run boot [change_file (Some Sample.leaf_png); loadend 0 true] in
  phase (st w) = Ready
  /\ count_posts (log (run w [click_analyze; click_analyze])) = 1
  /\ step (step w click_analyze) click_analyze = step w click_analyze.
Proof.
  intros w.
  pose proof (home_single_flight
                [change_file (Some Sample.leaf_png); loadend 0 true]) as H.
  pose proof (home_single_flight
                [change_file (Some Sample.leaf_png); loadend 0 true;
                 click_analyze]) as H'.
  cbv zeta in H, H'. destruct H as (_ & _ & H). destruct H' as (_ & H' & _).
  split; [reflexivity|]. split.
  - exact (proj2 (proj2 (H eq_refl))).
  - exact (H' eq_refl).
Defined.

End HomeInFlight.

(** ** The diagnosis page: selecting an image *)

Section HomeSelection.

Import Home.

(** C5, as stated, fails: the page holds a Prediction and the read of a
    newly chosen file ends successfully (the file was chosen while the
    request was pending); the image is stored and the Prediction is kept,
    so the page still shows the result and is not [Ready]. *)
Lemma select_image_discards_prediction_counterexample :
  phase (st Sample.resolved_reading) = Resolved
  /\ prediction (st Sample.resolved_reading) = Some Sample.blight
  /\ reads Sample.resolved_reading = [Sample.leaf_jpg]
  /\ st (step Sample.resolved_reading (loadend 0 true))
     = mkState (Some (readAsDataURL Sample.leaf_jpg)) false
               (Some Sample.blight)
  /\ phase (st (step Sample.resolved_reading (loadend 0 true))) <> Ready.
Proof.
  split; [reflexivity|]. split; [reflexivity|]. split; [reflexivity|].
  split; [reflexivity|discriminate].
Qed.

(** Reset is the one event that takes a held Prediction away. *)
Lemma step_clears_prediction (w : World) (ev : Event) :
  prediction (st w) <> None ->
  prediction (st (step w ev)) = None ->
  ev = click_reset.
Proof.
  intros Hp.
  destruct ev as [file | i ok | | | i q | i e]; cbn [step]; intros H;
    try reflexivity; exfalso.
  - destruct (results_shown (st w)); [contradiction|].
    destruct file as [f|]; unfold handleImageSelect in H;
      [destruct (negb _)|]; simpl in H; contradiction.
  - destruct (nth_error (reads w) i); simpl in H; contradiction.
  - destruct (results_shown (st w) || analyze_disabled (st w));
      [contradiction|].
    unfold analyzeImage in H.
    destruct (negb (Js.truthy (selectedImage (st w)))); simpl in H;
      contradiction.
  - destruct (nth_error (posts w) i); simpl in H;
      [discriminate H | contradiction].
  - destruct (nth_error (posts w) i); simpl in H; contradiction.
Qed.

(** C5, amended. A successful selection stores the data URL of the file
    and leaves [prediction] and [isLoading] as they were, in the handler
    and on the page when a pending read ends.  With no Prediction held and
    nothing pending the page is [Ready] afterwards.  A held Prediction
    stays: while it is shown the file input is not rendered, and the only
    event that clears it is a reset, which [resetAnalysis] serves. *)
Theorem select_image_keeps_prediction (file : File) (s : State) :
  Js.startsWith (type file) "image/" = true ->
  let s' := reader_onloadend (reader_result file true)
                             (fst (handleImageSelect (Some file) s)) in
  snd (handleImageSelect (Some file) s) = [read_file file]
  /\ selectedImage s' = Some (readAsDataURL file)
  /\ prediction s' = prediction s
  /\ isLoading s' = isLoading s
  /\ (isLoading s = false -> prediction s = None -> phase s' = Ready)
  /\ prediction (resetAnalysis s') = None
  /\ (forall w i, nth_error (reads w) i = Some file ->
        selectedImage (st (step w (loadend i true)))
        = Some (readAsDataURL file)
        /\ prediction (st (step w (loadend i true))) = prediction (st w))
  /\ (forall w f, results_shown (st w) = true ->
        step w (change_file f) = w)
  /\ (forall w ev, prediction (st w) <> None ->
        prediction (st (step w ev)) = None -> ev = click_reset)
  /\ (forall w, prediction (st w) <> None ->
        prediction (st (step w click_reset)) = None).
Proof.
  intros Himg. unfold handleImageSelect. rewrite Himg. simpl.
  split; [reflexivity|]. split; [reflexivity|]. split; [reflexivity|].
  split; [reflexivity|]. split.
  { intros Hl Hp. unfold phase, results_shown. simpl. now rewrite Hl, Hp. }
  split; [reflexivity|]. split.
  { intros w i H. cbn [step]. rewrite H. split; reflexivity. }
  split.
  { intros w f H. cbn [step]. now rewrite H. }
  split.
  { exact step_clears_prediction. }
  intros w Hp. cbn [step]. unfold results_shown.
  destruct (prediction (st w)); [reflexivity|contradiction].
Qed.

Lemma select_image_keeps_prediction_witness :
  phase (reader_onloadend (reader_result Sample.leaf_png true) initial) = Ready
  /\ prediction (st (step Sample.resolved_reading (loadend 0 true)))
     = Some Sample.blight.
Proof.
  split.
  - destruct (select_image_keeps_prediction Sample.leaf_png initial eq_refl)
      as (_ & _ & _ & _ & H & _).
    exact (H eq_refl eq_refl).
  - destruct (select_image_keeps_prediction Sample.leaf_jpg initial eq_refl)
      as (_ & _ & _ & _ & _ & _ & H & _).
    exact (proj2 (H Sample.resolved_reading 0 eq_refl)).
Defined.

End HomeSelection.

(** ** Overlapping reads *)

(** C6, as stated, fails on both pages: with two reads pending, the first
    call's read ending after the second one's puts the first file in the
    selection, where last-call-wins would keep the second. *)
Lemma superseded_read_discarded_counterexample :
  Home.selectedImage
    (Home.st (Home.run Home.boot
                [Home.change_file (Some Sample.leaf_png);
                 Home.change_file (Some Sample.leaf_jpg);
                 Home.loadend 1 true; Home.loadend 0 true]))
  = Some (readAsDataURL Sample.leaf_png)
  /\ Chat.selectedImage
       (Chat.st (Chat.run (Chat.boot "session_1")
                   [Chat.change_file (Some Sample.leaf_png);
                    Chat.change_file (Some Sample.leaf_jpg);
                    Chat.loadend 1 true; Chat.loadend 0 true]))
     = Some (readAsDataURL Sample.leaf_png)
  /\ readAsDataURL Sample.leaf_png <> readAsDataURL Sample.leaf_jpg.
Proof.
  split; [reflexivity|]. split; [reflexivity|discriminate].
Qed.

(** C6, amended. Encoding is last-completion-wins on both pages: choosing
    a file leaves every pending read pending, and whenever a pending read
    ends its result becomes the selection, whatever other reads were
    started or have ended meanwhile. *)
Theorem read_result_applied_on_completion (file : File) (ok : bool) :
  (forall w i, nth_error (Home.reads w) i = Some file ->
     Home.selectedImage (Home.st (Home.step w (Home.loadend i ok)))
     = reader_result file ok)
  /\ (forall w i, nth_error (Chat.reads w) i = Some file ->
        Chat.selectedImage (Chat.st (Chat.step w (Chat.loadend i ok)))
        = reader_result file ok)
  /\ (forall w f i, nth_error (Home.reads w) i = Some file ->
        nth_error (Home.reads (Home.step w (Home.change_file f))) i
        = Some file)
  /\ (forall w f i, nth_error (Chat.reads w) i = Some file ->
        nth_error (Chat.reads (Chat.step w (Chat.change_file f))) i
        = Some file).
Proof.
  repeat split.
  - intros w i H. cbn [Home.step]. now rewrite H.
  - intros w i H. cbn [Chat.step]. now rewrite H.
  - intros w f i H. cbn [Home.step].
    destruct (Home.results_shown (Home.st w)); [exact H|].
    unfold Home.commit. cbn [Home.reads].
    rewrite nth_error_app1; [exact H|].
    apply nth_error_Some. rewrite H. discriminate.
  - intros w f i H. cbn [Chat.step]. unfold Chat.commit. cbn [Chat.reads].
    rewrite nth_error_app1; [exact H|].
    apply nth_error_Some. rewrite H. discriminate.
Qed.

Lemma read_result_applied_on_completion_witness :
  Home.selectedImage
    (Home.st (Home.step
                (Home.mkWorld Sample.ready [Sample.leaf_png; Sample.leaf_jpg]
                              [] [])
                (Home.loadend 0 true)))
  = Some (readAsDataURL Sample.leaf_png).
Proof.
  exact (proj1 (read_result_applied_on_completion Sample.leaf_png true)
               (Home.mkWorld Sample.ready [Sample.leaf_png; Sample.leaf_jpg]
                             [] [])
               0 eq_refl).
Defined.

(** ** The diagnosis page: a failed request *)

Section HomeFailure.

Import Home.

(** C9, as stated, fails: a failure body whose [detail] is the empty
    string has the field present, and the toast is the generic message,
    not that string. *)
Lemma predict_failure_detail_counterexample :
  error_detail Sample.empty_detail = Some ""
  /\ snd (analyzeImage_rejected Sample.empty_detail Sample.ready)
     = [console_error "Error analyzing image:";
        toast_error "Failed to analyze image"]
  /\ toast_error "Failed to analyze image" <> toast_error "".
Proof.
  split; [reflexivity|]. split; [reflexivity|discriminate].
Qed.

(** C9, amended. A failed request clears [isLoading] and leaves the
    selected image and [prediction] as they were, so with an image
    selected the page is back in [Ready] with the analyze button enabled.
    The error toast carries [detail] verbatim when it is present and not
    empty, and "Failed to analyze image" when it is absent or empty. *)
Theorem predict_failure_keeps_selection (error : AxiosError) (s : State) :
  let r := analyzeImage_rejected error s in
  isLoading (fst r) = false
  /\ selectedImage (fst r) = selectedImage s
  /\ prediction (fst r) = prediction s
  /\ (forall d, error_detail error = Some d -> d <> "" ->
        snd r = [console_error "Error analyzing image:"; toast_error d])
  /\ (error_detail error = None \/ error_detail error = Some "" ->
        snd r = [console_error "Error analyzing image:";
                 toast_error "Failed to analyze image"])
  /\ (Js.truthy (selectedImage s) = true -> prediction s = None ->
        phase (fst r) = Ready /\ analyze_disabled (fst r) = false).
Proof.
  unfold analyzeImage_rejected. simpl. repeat split.
  - intros d Hd Hne. rewrite Hd. destruct d; [contradiction|reflexivity].
  - intros [H | H]; rewrite H; reflexivity.
  - unfold phase, results_shown. simpl. now rewrite H, H0.
  - unfold analyze_disabled. simpl. now rewrite H.
Qed.

Lemma predict_failure_keeps_selection_witness :
  snd (analyzeImage_rejected Sample.with_detail Sample.ready)
  = [console_error "Error analyzing image:"; toast_error "Model unavailable"]
  /\ phase (fst (analyzeImage_rejected Sample.with_detail Sample.ready)) = Ready.
Proof.
  destruct (predict_failure_keeps_selection Sample.with_detail Sample.ready)
    as (_ & _ & _ & Hd & _ & Hr).
  split.
  - apply (Hd "Model unavailable" eq_refl). discriminate.
  - exact (proj1 (Hr eq_refl eq_refl)).
Defined.

End HomeFailure.

(** ** The chat page: sending *)

Section ChatSending.

Import Chat.

(** The send button is gated on [isLoading]. *)
Lemma send_button_gated (w : World) (now : string) :
  isLoading (st w) = true -> step w (click_send now) = w.
Proof.
  intros H. cbn [step]. unfold send_disabled. rewrite H, orb_true_r.
  reflexivity.
Qed.

(** [handleKeyPress] is not: Enter goes straight to [sendMessage], which
    does not read [isLoading]. *)
Lemma enter_key_not_gated (now : string) (s : State) :
  Js.truthy_string (Js.trim (inputMessage s)) = true ->
  handleKeyPress "Enter" false now s
  = (mkState (messages s
                ++ [mkChatMessage user (inputMessage s) (selectedImage s) now])
             "" true (sessionId s) None,
     snd (sendMessage now s))
  /\ exists body, snd (sendMessage now s) = [post_chat body].
Proof.
  intros H. unfold handleKeyPress, sendMessage. simpl. rewrite H. simpl.
  split; [reflexivity|]. eexists. reflexivity.
Qed.

(** C2, on the code: while a reply is awaited ([isLoading] set) the send
    button is disabled, but Enter in the text input runs [sendMessage]
    all the same; a second user message is appended and a second
    [POST /api/chat] is issued while the first is still pending. *)
Theorem enter_key_sends_while_awaiting :
  isLoading Sample.awaiting = true
  /\ send_disabled Sample.awaiting = true
  /\ handleKeyPress "Enter" false "t2" Sample.awaiting
     = (mkState [mkChatMessage user "first" None "t1";
                 mkChatMessage user "second" None "t2"]
                "" true "session_1" None,
        [post_chat (Request.mk "session_1" "second" None)])
  /\ posts (run (boot "session_1")
              [history_fulfilled []; input_change "first"; click_send "t1";
               input_change "second"; key_press "Enter" false "t2"])
     = [Request.mk "session_1" "first" None;
        Request.mk "session_1" "second" None]
  /\ map message
       (messages
          (st (run (boot "session_1")
                 [history_fulfilled []; input_change "first"; click_send "t1";
                  input_change "second"; key_press "Enter" false "t2";
                  chat_fulfilled 0 "reply to first" "t3"])))
     = ["first"; "second"; "reply to first"].
Proof. repeat split. Qed.

(** C4, as stated, fails: with an image and no text the entry appended to
    [messages] carries the empty text, and the request carries
    "Please analyze this image", which is not the lower-case placeholder
    of the specification. *)
Lemma empty_text_placeholder_counterexample :
  map message (messages (fst (sendMessage "t" Sample.image_only))) = [""]
  /\ "" <> Spec.placeholder
  /\ snd (sendMessage "t" Sample.image_only)
     = [post_chat (Request.mk "session_1" "Please analyze this image"
                              (Some "TWFu"))]
  /\ "Please analyze this image" <> Spec.placeholder.
Proof.
  split; [reflexivity|]. split; [discriminate|].
  split; [reflexivity|discriminate].
Qed.

(** C4, amended. On a send with empty composer text and an attachment,
    the entry appended to [messages] before the request is made carries
    the empty text together with the attachment, and only the request body
    carries the placeholder, which reads "Please analyze this image". *)
Theorem empty_text_placeholder_in_request_only
  (now img : string) (s : State) :
  inputMessage s = "" ->
  selectedImage s = Some img ->
  Js.truthy_string img = true ->
  messages (fst (sendMessage now s))
  = messages s ++ [mkChatMessage user "" (Some img) now]
  /\ exists body,
       snd (sendMessage now s) = [post_chat body]
       /\ Request.message body = "Please analyze this image"
       /\ Request.session_id body = sessionId s.
Proof.
  intros Ht Hi Himg. unfold sendMessage. rewrite Ht, Hi. simpl.
  rewrite Himg. simpl. split; [reflexivity|].
  eexists. repeat split.
Qed.

Lemma empty_text_placeholder_in_request_only_witness :
  messages (fst (sendMessage "t" Sample.image_only))
  = [mkChatMessage user "" (Some (readAsDataURL Sample.leaf_png)) "t"].
Proof.
  exact (proj1 (empty_text_placeholder_in_request_only
                  "t" (readAsDataURL Sample.leaf_png) Sample.image_only
                  eq_refl eq_refl eq_refl)).
Defined.

(** C7, on the code: the user entry that [sendMessage] appends holds the
    attachment as the data URL of the selection, scheme prefix included,
    while the request body of the same send holds the base64 body; the
    bubble's [src], which prefixes [image_base64] with
    [data:image/jpeg;base64,], is then a doubled prefix and no image. *)
Theorem user_entry_holds_display_uri (file : File) (now : string) (s : State) :
  selectedImage s = Some (readAsDataURL file) ->
  exists m,
    messages (fst (sendMessage now s)) = messages s ++ [m]
    /\ role m = user
    /\ image_base64 m = Some (readAsDataURL file)
    /\ Js.startsWith (readAsDataURL file) "data:" = true
    /\ Spec.transport_form (readAsDataURL file) = false
    /\ img_src m
       = Some ("data:image/jpeg;base64," ++ readAsDataURL file)%string.
Proof.
  intros Hs. unfold sendMessage. rewrite Hs, data_url_truthy.
  rewrite andb_false_r. simpl. eexists. repeat split.
  - apply data_url_scheme.
  - unfold Spec.transport_form. now rewrite data_url_scheme.
Qed.

Lemma user_entry_holds_display_uri_witness :
  exists m,
    messages (fst (sendMessage "t" Sample.image_only)) = [m]
    /\ image_base64 m = Some "data:image/png;base64,TWFu"
    /\ img_src m = Some "data:image/jpeg;base64,data:image/png;base64,TWFu".
Proof.
  destruct (user_entry_holds_display_uri Sample.leaf_png "t" Sample.image_only
              eq_refl) as (m & Hm & _ & Hi & _ & _ & Hsrc).
  exists m. repeat split; assumption.
Defined.

End ChatSending.

(** ** The chat page: order of the messages *)

Section ChatOrder.

Import Chat.


Lemma sendable_guard (x : Send) :
  sendable x = true ->
  negb (Js.truthy_string (Js.trim (text x))) && negb (Js.truthy (attached x))
  = false.
Proof.
  unfold sendable. intros H. apply orb_true_iff in H as [H | H]; rewrite H;
    [reflexivity | apply andb_false_r].
Qed.

(** The composer once the events before the send have run. *)
Lemma compose_run (w : World) (x : Send) :
  quiet w ->
  let w1 := run w ([input_change (text x)]
                   ++ match attachment x with
                      | Some f => [change_file (Some f); loadend 0 true]
                      | None => []
                      end) in
  quiet (mkWorld (setSelectedImage None (st w1)) (history_due w1) (reads w1)
                 (posts w1) (log w1))
  /\ st w1 = mkState (messages (st w)) (text x) false (sessionId (st w))
                     (attached x).
Proof.
  destruct w as [[ms im il sd sel] hd rd ps lg]. unfold quiet. simpl.
  intros (-> & -> & -> & -> & ->). unfold attached.
  destruct (attachment x) as [f|]; [|repeat split].
  cbn [app run fold_left]. cbn [step]. unfold handleImageSelect.
  destruct (Js.startsWith (type f) "image/"); simpl; repeat split.
Qed.

(** One round trip from a quiet page appends its entries and leaves the
    page quiet. *)
Lemma round_trip_appends (w : World) (x : Send) :
  quiet w -> sendable x = true ->
  quiet (run w (round_trip x))
  /\ messages (st (run w (round_trip x))) = messages (st w) ++ entries x.
Proof.
  intros Hq Hs. unfold round_trip, run. rewrite app_assoc, fold_left_app.
  fold (run w ([input_change (text x)]
               ++ match attachment x with
                  | Some f => [change_file (Some f); loadend 0 true]
                  | None => []
                  end)).
  destruct (compose_run w x Hq) as [Hq1 Hst]. cbv zeta in Hq1, Hst.
  set (w1 := run w _) in *. clearbody w1.
  destruct w1 as [s1 hd rd ps lg]. simpl in Hst. subst s1.
  destruct Hq1 as (Hh & Hr & Hp & _). simpl in Hh, Hr, Hp. subst hd rd ps.
  pose proof (sendable_guard x Hs) as G.
  assert (Hsend : forall ev,
             ev = click_send (sent_at x)
             \/ ev = key_press "Enter" false (sent_at x) ->
             exists body lg',
               step (mkWorld (mkState (messages (st w)) (text x) false
                                      (sessionId (st w)) (attached x))
                             false [] [] lg) ev
               = mkWorld (mkState (messages (st w) ++ [user_entry x]) "" true
                                  (sessionId (st w)) None)
                         false [] [body] lg').
  { intros ev [-> | ->]; cbn [step]; unfold send_disabled, handleKeyPress;
      simpl; unfold sendMessage; simpl; rewrite G; simpl;
      eexists; eexists; reflexivity. }
  destruct (Hsend (if by_enter x then key_press "Enter" false (sent_at x)
                   else click_send (sent_at x)))
    as (body & lg' & Hstep); [destruct (by_enter x); auto|].
  cbn [fold_left]. rewrite Hstep. unfold entries, quiet.
  destruct (outcome x) as [r now|]; simpl.
  - rewrite <- app_assoc. repeat split.
  - repeat split.
Qed.

Lemma serial_appends (xs : list Send) (w : World) :
  quiet w -> Forall (fun x => sendable x = true) xs ->
  messages (st (run w (serial xs))) = messages (st w) ++ flat_map entries xs.
Proof.
  revert w. induction xs as [|x xs IH]; intros w Hq Hall.
  - simpl. now rewrite app_nil_r.
  - inversion Hall as [|? ? Hx Hxs]; subst.
    destruct (round_trip_appends w x Hq Hx) as [Hq' Hm].
    unfold serial, run. cbn [flat_map]. rewrite fold_left_app.
    fold (run w (round_trip x)). fold (serial xs).
    fold (run (run w (round_trip x)) (serial xs)).
    rewrite (IH _ Hq' Hxs), Hm. simpl. now rewrite <- app_assoc.
Qed.

Lemma roles_all_replied (xs : list Send) :
  Forall (fun x => outcome x <> failed) xs ->
  map role (flat_map entries xs)
  = flat_map (fun _ => [user; assistant]) xs.
Proof.
  induction 1 as [|x xs Hx _ IH]; [reflexivity|].
  cbn [flat_map]. rewrite map_app, IH. unfold entries.
  destruct (outcome x); [reflexivity|contradiction].
Qed.



End ChatOrder.

(** * Further properties of the pages *)

(** ** The diagnosis page: where selections and requests come from *)

Lemma split_second_piece (sep : ascii) (s : string) :
  Js.occurs sep s = true ->
  exists x, Js.index (Js.split sep s) 1 = Some x.
Proof.
  unfold Js.index. induction s as [|c s IH]; simpl; [discriminate|].
  destruct (Ascii.eqb c sep) eqn:E; simpl.
  - intros _. pose proof (split_nonempty sep s) as Hne.
    destruct (Js.split sep s) as [|h t]; [contradiction|].
    exists h. reflexivity.
  - intros H. destruct (IH H) as [x Hx].
    destruct (Js.split sep s) as [|h t]; [discriminate Hx|].
    exists x. exact Hx.
Qed.

Lemma data_url_has_comma (file : File) :
  Js.occurs ","%char (readAsDataURL file) = true.
Proof.
  rewrite data_url_shape, occurs_append. simpl. apply orb_true_r.
Qed.

Lemma Forall_remove_at {A} (P : A -> Prop) (i : nat) (l : list A) :
  Forall P l -> Forall P (Home.remove_at i l).
Proof.
  unfold Home.remove_at. intros H. revert i.
  induction H as [|x l Hx Hl IH]; intros [|i]; simpl; auto.
Qed.

Section HomeProvenance.

Import Home.

Variable P : File -> Prop.

Lemma started_posts_app (a b : list Effect) :
  started_posts (a ++ b) = started_posts a ++ started_posts b.
Proof. apply flat_map_app. Qed.

Lemma truthy_selection (v : Js.nullable) :
  selection_of P v -> Js.truthy v = true ->
  exists f, P f /\ v = Some (readAsDataURL f).
Proof.
  intros [Hn | Hf] Ht; [subst v; discriminate Ht | exact Hf].
Qed.

Lemma step_provenance (w : World) (ev : Event) :
  provenance P w ->
  (forall f, ev = change_file (Some f) -> image_file f -> P f) ->
  provenance P (step w ev).
Proof.
  intros (Hr & Hs & Hp) Hev.
  destruct ev as [file | i ok | | | i p | i e]; cbn [step].
  - destruct (results_shown (st w)); [now repeat split|].
    destruct file as [f|]; unfold handleImageSelect.
    + destruct (Js.startsWith (type f) "image/") eqn:Hf; simpl;
        unfold provenance, commit; simpl.
      * rewrite started_posts_app, app_nil_r. repeat split; auto.
        apply Forall_app. split; [exact Hr|].
        constructor; [|constructor]. apply Hev; [reflexivity|exact Hf].
      * rewrite started_posts_app, !app_nil_r. now repeat split.
    + unfold provenance, commit; simpl. rewrite !app_nil_r. now repeat split.
  - destruct (nth_error (reads w) i) as [file|] eqn:Hi; [|now repeat split].
    assert (Hfile : P file).
    { eapply Forall_forall; [exact Hr | eapply nth_error_In; exact Hi]. }
    unfold provenance; simpl. repeat split.
    + apply Forall_remove_at, Hr.
    + destruct ok; [right; exists file; split; [exact Hfile|reflexivity]
                   | left; reflexivity].
    + exact Hp.
  - destruct (results_shown (st w) || analyze_disabled (st w)) eqn:Hd;
      [now repeat split|].
    apply orb_false_iff in Hd as [_ Hd]. unfold analyze_disabled in Hd.
    apply orb_false_iff in Hd as [Ht _]. apply negb_false_iff in Ht.
    destruct (truthy_selection _ Hs Ht) as (f & Hf & Hsel).
    unfold analyzeImage. rewrite Ht. unfold provenance, commit; simpl.
    rewrite started_posts_app, app_nil_r. repeat split; auto.
    apply Forall_app. split; [exact Hp|]. constructor; [|constructor].
    exists f. split; [exact Hf|]. simpl. now rewrite Hsel.
  - destruct (results_shown (st w) || reset_shown (st w));
      [|now repeat split].
    unfold provenance; simpl. repeat split; auto. left; reflexivity.
  - destruct (nth_error (posts w) i); [|now repeat split].
    unfold provenance, commit; simpl.
    rewrite started_posts_app, !app_nil_r. now repeat split.
  - destruct (nth_error (posts w) i); [|now repeat split].
    unfold provenance, commit; simpl.
    rewrite started_posts_app, !app_nil_r. now repeat split.
Qed.

Lemma run_provenance (evs : list Event) (w : World) :
  provenance P w ->
  (forall f, In f (chosen evs) -> image_file f -> P f) ->
  provenance P (run w evs).
Proof.
  revert w. induction evs as [|ev evs IH]; intros w Hw HP; [exact Hw|].
  cbn [run fold_left]. apply IH.
  - apply step_provenance; [exact Hw|].
    intros f Hev Hf. apply HP; [|exact Hf]. subst ev. simpl. now left.
  - intros f Hin Hf. apply HP; [|exact Hf].
    unfold chosen. simpl. apply in_or_app. right. exact Hin.
Qed.

End HomeProvenance.

Lemma boot_provenance (P : File -> Prop) : Home.provenance P Home.boot.
Proof. repeat split; try constructor. reflexivity. Qed.

Lemma reachable_provenance (evs : list Home.Event) :
  Home.provenance (fun f => Home.image_file f /\ In f (Home.chosen evs))
                  (Home.run Home.boot evs).
Proof.
  apply run_provenance; [apply boot_provenance|]. intros f Hin Hf. now split.
Qed.

(** X1. Whatever the events, the selection of the diagnosis page is [null] or
    the data URL of a file that was handed over by a change event and
    passed the [image/] check, and so is every read still pending. *)
Theorem home_selection_is_chosen_image (evs : list Home.Event) :
  let w := Home.run Home.boot evs in
  let P := fun f => Home.image_file f /\ In f (Home.chosen evs) in
  Home.selection_of P (Home.selectedImage (Home.st w))
  /\ Forall P (Home.reads w).
Proof.
  destruct (reachable_provenance evs) as (Hr & Hs & _). split; assumption.
Qed.

(** X2. Every diagnosis request the page ever issues carries an
    [image_base64] string, cut from the data URL of a chosen file that
    passed the [image/] check; when that file's type holds no comma, it is
    the base64 text of the file's content. *)
Theorem home_requests_carry_chosen_image
  (evs : list Home.Event) (body : Home.PredictBody) :
  In body (Home.started_posts (Home.log (Home.run Home.boot evs))) ->
  exists f,
    Home.image_file f /\ In f (Home.chosen evs)
    /\ Home.image_base64 body
       = Js.index (Js.split ","%char (readAsDataURL f)) 1
    /\ Home.image_base64 body <> None
    /\ (Js.occurs ","%char (type f) = false ->
        Home.image_base64 body = Some (Base64.encode (bytes f))).
Proof.
  intros Hin. destruct (reachable_provenance evs) as (_ & _ & Hp).
  destruct (proj1 (Forall_forall _ _) Hp body Hin) as (f & [Hf Hc] & Hb).
  exists f. repeat split; try assumption.
  - rewrite Hb.
    destruct (split_second_piece ","%char _ (data_url_has_comma f)) as [x Hx].
    rewrite Hx. discriminate.
  - intros Hcomma. rewrite Hb, data_url_split by exact Hcomma. reflexivity.
Qed.

Lemma home_requests_carry_chosen_image_witness :
  exists f, In f [Sample.leaf_png]
            /\ Some "TWFu" = Some (Base64.encode (bytes f)).
Proof.
  destruct (home_requests_carry_chosen_image
              [Home.change_file (Some Sample.leaf_png); Home.loadend 0 true;
               Home.click_analyze]
              (Home.mkPredictBody (Some "TWFu"))
              (or_introl eq_refl))
    as (f & Hf & Hc & _ & _ & Hb).
  exists f. split; [exact Hc|].
  apply Hb. destruct Hc as [Hc | []]. subst f. reflexivity.
Defined.

(** ** The diagnosis page: submit, result and reset *)

Section HomeLifecycle.

Import Home.

Lemma idle_posts (w : World) :
  flag_counts_posts w -> isLoading (st w) = false -> posts w = [].
Proof.
  unfold flag_counts_posts. intros H Hl. rewrite Hl in H.
  destruct (posts w); [reflexivity|discriminate H].
Qed.

Lemma pending_post (w : World) :
  flag_counts_posts w -> isLoading (st w) = true ->
  exists b, posts w = [b].
Proof.
  unfold flag_counts_posts. intros H Hl. rewrite Hl in H.
  destruct (posts w) as [|b [|c l]]; try discriminate H. now exists b.
Qed.

(** X3. From [Ready], in any state the page can reach, a submit followed by
    the service's answer shows exactly the returned Prediction: the image
    stays selected, nothing is pending any more, and the log gains the
    request and the success toast. *)
Theorem home_submit_then_result (evs : list Event) (p : Prediction) :
  let w := run boot evs in
  phase (st w) = Ready ->
  let w' := run w [click_analyze; predict_fulfilled 0 p] in
  st w' = mkState (selectedImage (st w)) false (Some p)
  /\ phase (st w') = Resolved
  /\ posts w' = []
  /\ exists body, log w' = log w ++ [post_predict body;
                                     toast_success "Analysis complete!"].
Proof.
  intros w Hr.
  assert (Hw : flag_counts_posts w)
    by (apply run_flag_counts_posts, boot_flag_counts_posts).
  apply phase_ready in Hr as (Hl & Hres & Ht).
  pose proof (idle_posts w Hw Hl) as Hposts.
  cbn [run fold_left]. cbn [step]. unfold analyze_disabled.
  rewrite Hres, Ht, Hl. simpl. unfold analyzeImage. rewrite Ht.
  unfold commit at 2. simpl. rewrite Hposts. simpl.
  unfold commit. simpl. unfold phase, results_shown. simpl.
  repeat split. eexists. rewrite <- app_assoc. reflexivity.
Qed.

Lemma home_submit_then_result_witness :
  st (run boot [change_file (Some Sample.leaf_png); loadend 0 true;
                click_analyze; predict_fulfilled 0 Sample.blight])
  = Sample.resolved.
Proof.
  exact (proj1 (home_submit_then_result
                  [change_file (Some Sample.leaf_png); loadend 0 true]
                  Sample.blight eq_refl)).
Defined.

(** X4. Reset does not cancel a pending request: when the user resets while a
    request is pending and the answer then arrives, the page shows that
    Prediction with no image selected; when the request fails instead, the
    page is [Idle]. *)
Theorem home_reset_does_not_cancel (evs : list Event) (p : Prediction)
  (error : AxiosError) :
  let w := run boot evs in
  isLoading (st w) = true ->
  Js.truthy (selectedImage (st w)) = true ->
  st (run w [click_reset; predict_fulfilled 0 p]) = mkState None false (Some p)
  /\ st (run w [click_reset; predict_rejected 0 error])
     = mkState None false None
  /\ posts (step w click_reset) = posts w
  /\ length (posts w) = 1.
Proof.
  intros w Hl Ht.
  assert (Hw : flag_counts_posts w)
    by (apply run_flag_counts_posts, boot_flag_counts_posts).
  destruct (pending_post w Hw Hl) as [b Hb].
  cbn [run fold_left]. cbn [step]. unfold reset_shown. rewrite Ht, orb_true_r.
  simpl. rewrite Hb. simpl. repeat split.
Qed.

Lemma home_reset_does_not_cancel_witness :
  st (run boot [change_file (Some Sample.leaf_png); loadend 0 true;
                click_analyze; click_reset;
                predict_fulfilled 0 Sample.blight])
  = mkState None false (Some Sample.blight).
Proof.
  exact (proj1 (home_reset_does_not_cancel
                  [change_file (Some Sample.leaf_png); loadend 0 true;
                   click_analyze]
                  Sample.blight Sample.with_detail eq_refl eq_refl)).
Defined.

(** X5. A second click on reset changes nothing, and after a reset the
    analyze button does nothing either: no request can be issued until a
    new image has been read. *)
Theorem home_reset_twice (w : World) :
  let w' := step w click_reset in
  step w' click_reset = w'
  /\ step w' click_analyze = w'
  /\ Js.truthy (selectedImage (st w')) = false
  /\ prediction (st w') = None.
Proof.
  cbn [step]. unfold reset_shown, results_shown, analyze_disabled.
  destruct w as [[sel l pr] r ps lg]. simpl.
  destruct pr as [pr|]; simpl; [repeat split|].
  destruct (Js.truthy sel) eqn:Ht; simpl; [repeat split|].
  rewrite ?Ht. simpl. rewrite ?Ht. repeat split; try assumption.
Qed.

Lemma step_posts_need_click (w : World) (ev : Event) :
  count_posts (log (step w ev))
  <= count_posts (log w) + analyze_clicks [ev].
Proof.
  unfold count_posts, analyze_clicks.
  destruct ev as [file | i ok | | | i p | i e]; cbn [step filter length].
  - destruct (results_shown (st w)); [lia|].
    destruct file as [f|]; unfold handleImageSelect;
      [destruct (negb _)|]; unfold commit; simpl;
      rewrite started_posts_app, length_app; simpl; lia.
  - destruct (nth_error (reads w) i); simpl; lia.
  - destruct (results_shown (st w) || analyze_disabled (st w)); [lia|].
    unfold analyzeImage.
    destruct (negb (Js.truthy (selectedImage (st w))));
      unfold commit; simpl; rewrite started_posts_app, length_app;
      simpl; lia.
  - destruct (results_shown (st w) || reset_shown (st w)); simpl; lia.
  - destruct (nth_error (posts w) i); [|lia].
    unfold commit; simpl. rewrite started_posts_app, length_app. simpl. lia.
  - destruct (nth_error (posts w) i); [|lia].
    unfold commit; simpl. rewrite started_posts_app, length_app. simpl. lia.
Qed.

(** X6. The page issues no request on its own: over any trace, from any
    state, the requests added to the log are at most the clicks on the
    analyze button. *)
Theorem home_requests_need_clicks (evs : list Event) (w : World) :
  count_posts (log (run w evs)) <= count_posts (log w) + analyze_clicks evs.
Proof.
  revert w. induction evs as [|ev evs IH]; intros w.
  - unfold analyze_clicks. simpl. lia.
  - cbn [run fold_left]. fold (run (step w ev) evs).
    pose proof (IH (step w ev)) as H1.
    pose proof (step_posts_need_click w ev) as H2.
    unfold analyze_clicks in *. simpl in *.
    destruct ev; simpl in *; lia.
Qed.

End HomeLifecycle.

(** ** The chat page: what the guard of [sendMessage] lets through *)

(** Induction that follows the way [blank] and [trimStart] consume a
    string: a character of one, two or three bytes at a time. *)
Lemma by_characters (P : string -> Prop) :
  P EmptyString ->
  (forall c1 r1, Js.is_space c1 = true -> P r1 -> P (String c1 r1)) ->
  (forall c1, Js.is_space c1 = false -> P (String c1 EmptyString)) ->
  (forall c1 c2 r2, Js.is_space c1 = false -> Js.is_space2 c1 c2 = true ->
                    P r2 -> P (String c1 (String c2 r2))) ->
  (forall c1 c2, Js.is_space c1 = false -> Js.is_space2 c1 c2 = false ->
                 P (String c1 (String c2 EmptyString))) ->
  (forall c1 c2 c3 r3, Js.is_space c1 = false -> Js.is_space2 c1 c2 = false ->
                       Js.is_space3 c1 c2 c3 = true -> P r3 ->
                       P (String c1 (String c2 (String c3 r3)))) ->
  (forall c1 c2 c3 r3, Js.is_space c1 = false -> Js.is_space2 c1 c2 = false ->
                       Js.is_space3 c1 c2 c3 = false ->
                       P (String c1 (String c2 (String c3 r3)))) ->
  forall s, P s.
Proof.
  intros H0 H1 H1' H2 H2' H3 H3'.
  assert (H : forall s, P s /\ (forall c, P (String c s))
                        /\ (forall c d, P (String c (String d s)))).
  { induction s as [|x s (IHa & IHb & IHc)].
    - split; [exact H0|]. split.
      + intros c. destruct (Js.is_space c) eqn:E; [apply H1|apply H1']; auto.
      + intros c d. destruct (Js.is_space c) eqn:E1.
        * apply H1; [exact E1|].
          destruct (Js.is_space d) eqn:E; [apply H1|apply H1']; auto.
        * destruct (Js.is_space2 c d) eqn:E2; [apply H2|apply H2']; auto.
    - split; [apply IHb|]. split; [intros c; apply IHc|].
      intros c d.
      destruct (Js.is_space c) eqn:E1; [apply H1; [exact E1|apply IHc]|].
      destruct (Js.is_space2 c d) eqn:E2; [apply H2; auto|].
      destruct (Js.is_space3 c d x) eqn:E3; [apply H3|apply H3']; auto. }
  intros s. apply H.
Qed.

Lemma trimStart_blank (s : string) :
  Js.blank s = true -> Js.trimStart s = EmptyString.
Proof.
  induction s as [| c1 r1 E1 IH | c1 E1 | c1 c2 r2 E1 E2 IH | c1 c2 E1 E2
                 | c1 c2 c3 r3 E1 E2 E3 IH | c1 c2 c3 r3 E1 E2 E3]
    using by_characters; cbn [Js.blank Js.trimStart];
    rewrite ?E1, ?E2, ?E3; try discriminate; auto.
Qed.

(** What [trimStart] leaves is white space exactly when the whole is. *)
Lemma trimStart_keeps_blank (s : string) :
  Js.blank (Js.trimStart s) = Js.blank s.
Proof.
  induction s as [| c1 r1 E1 IH | c1 E1 | c1 c2 r2 E1 E2 IH | c1 c2 E1 E2
                 | c1 c2 c3 r3 E1 E2 E3 IH | c1 c2 c3 r3 E1 E2 E3]
    using by_characters; cbn [Js.blank Js.trimStart];
    rewrite ?E1, ?E2, ?E3; cbn [Js.blank];
    rewrite ?E1, ?E2, ?E3; auto.
Qed.

Lemma trimEnd_not_blank (s : string) :
  Js.blank s = false -> Js.truthy_string (Js.trimEnd s) = true.
Proof.
  destruct s as [|c r]; [discriminate|].
  intros H. cbn [Js.trimEnd]. now rewrite H.
Qed.

(** [trim] leaves nothing exactly when every character is white space. *)
Lemma trim_empty_iff_blank (s : string) :
  Js.truthy_string (Js.trim s) = negb (Js.blank s).
Proof.
  unfold Js.trim. destruct (Js.blank s) eqn:Hb; simpl.
  - now rewrite (trimStart_blank s Hb).
  - apply trimEnd_not_blank. now rewrite trimStart_keeps_blank.
Qed.

Section ChatGuard.

Import Chat.

Lemma guard_passes (now : string) (s : State) :
  Js.blank (inputMessage s) = false \/ Js.truthy (selectedImage s) = true ->
  exists body,
    sendMessage now s
    = (mkState (messages s
                  ++ [mkChatMessage user (inputMessage s) (selectedImage s) now])
               "" true (sessionId s) None,
       [post_chat body])
    /\ Request.session_id body = sessionId s
    /\ Request.message body
       = Js.or_string (inputMessage s) "Please analyze this image".
Proof.
  intros H. unfold sendMessage. rewrite trim_empty_iff_blank, negb_involutive.
  assert (G : Js.blank (inputMessage s)
              && negb (Js.truthy (selectedImage s)) = false).
  { destruct H as [H | H]; rewrite H; [reflexivity | apply andb_false_r]. }
  rewrite G. eexists. repeat split.
Qed.

(** X8. A send is dropped, with no message appended and no request issued,
    exactly when the composer text is empty or all white space and no image
    is attached; then Enter and the send button do nothing either. *)
Theorem chat_send_dropped_iff_blank (now : string) (s : State) :
  (sendMessage now s = (s, [])
   <-> Js.blank (inputMessage s) = true
       /\ Js.truthy (selectedImage s) = false)
  /\ (Js.blank (inputMessage s) = true ->
      Js.truthy (selectedImage s) = false ->
      (forall key shiftKey, handleKeyPress key shiftKey now s = (s, []))
      /\ (forall w, st w = s -> step w (click_send now) = w)).
Proof.
  assert (Hdrop : Js.blank (inputMessage s) = true ->
                  Js.truthy (selectedImage s) = false ->
                  sendMessage now s = (s, [])).
  { intros Hb Ht. unfold sendMessage.
    now rewrite trim_empty_iff_blank, Hb, Ht. }
  split; [split|].
  - intros Hs.
    destruct (Js.blank (inputMessage s)) eqn:Hb;
      destruct (Js.truthy (selectedImage s)) eqn:Ht; auto;
      [destruct (guard_passes now s (or_intror Ht)) as (b & Hg & _)
      |destruct (guard_passes now s (or_introl Hb)) as (b & Hg & _)
      |destruct (guard_passes now s (or_introl Hb)) as (b & Hg & _)];
      rewrite Hg in Hs; discriminate Hs.
  - intros [Hb Ht]. now apply Hdrop.
  - intros Hb Ht. split.
    + intros key shiftKey. unfold handleKeyPress.
      destruct (String.eqb key "Enter" && negb shiftKey);
        [now apply Hdrop | reflexivity].
    + intros w Hw. cbn [step]. unfold send_disabled.
      now rewrite Hw, trim_empty_iff_blank, Hb, Ht.
Qed.

Lemma chat_send_dropped_iff_blank_witness :
  handleKeyPress "Enter" false "t" (mkState [] "  " false "session_1" None)
  = (mkState [] "  " false "session_1" None, []).
Proof.
  exact (proj1 (proj2 (chat_send_dropped_iff_blank
                         "t" (mkState [] "  " false "session_1" None))
                      eq_refl eq_refl)
               "Enter" false).
Defined.

(** X9. The send button takes one click at a time: a second click right after
    a first changes nothing, whatever the state. *)
Theorem chat_send_button_twice (w : World) (t1 t2 : string) :
  step (step w (click_send t1)) (click_send t2) = step w (click_send t1).
Proof.
  cbn [step]. destruct (send_disabled (st w)) eqn:Hd.
  - now rewrite Hd.
  - unfold send_disabled in Hd. apply orb_false_iff in Hd as [Hg _].
    unfold sendMessage. rewrite Hg. unfold commit. simpl.
    unfold send_disabled. simpl. reflexivity.
Qed.

End ChatGuard.

(** ** The chat page: invariants over traces *)

Section ChatTraces.

Import Chat.

Lemma chat_started_posts_app (a b : list Effect) :
  started_posts (a ++ b) = started_posts a ++ started_posts b.
Proof. apply flat_map_app. Qed.

Lemma chat_started_gets_app (a b : list Effect) :
  started_gets (a ++ b) = started_gets a ++ started_gets b.
Proof. apply flat_map_app. Qed.

Lemma chat_remove_at_length {A} (i : nat) (l : list A) (x : A) :
  nth_error l i = Some x -> length (remove_at i l) = pred (length l).
Proof.
  revert i. induction l as [|y l IH]; intros [|i] H; try discriminate H.
  - reflexivity.
  - unfold remove_at in *. simpl in *. rewrite (IH i H).
    destruct l; [destruct i; discriminate H | reflexivity].
Qed.

(** What [sendMessage] returns, by cases on its guard. *)
Lemma sendMessage_cases (now : string) (s : State) :
  sendMessage now s = (s, [])
  \/ exists body,
       sendMessage now s
       = (mkState (messages s
                     ++ [mkChatMessage user (inputMessage s)
                                       (selectedImage s) now])
                  "" true (sessionId s) None,
          [post_chat body])
       /\ Request.session_id body = sessionId s
       /\ Request.image_base64 body
          = (if Js.truthy (selectedImage s)
             then match selectedImage s with
                  | Some img => Js.index (Js.split ","%char img) 1
                  | None => None
                  end
             else None).
Proof.
  unfold sendMessage.
  destruct (negb (Js.truthy_string (Js.trim (inputMessage s)))
            && negb (Js.truthy (selectedImage s)));
    [left; reflexivity | right; eexists; repeat split].
Qed.

Lemma handleKeyPress_cases (key : string) (shiftKey : bool) (now : string)
  (s : State) :
  handleKeyPress key shiftKey now s = (s, [])
  \/ (key_sends (key_press key shiftKey now) = true
      /\ handleKeyPress key shiftKey now s = sendMessage now s).
Proof.
  unfold handleKeyPress, key_sends.
  destruct (String.eqb key "Enter" && negb shiftKey);
    [right; split; reflexivity | left; reflexivity].
Qed.

Lemma commit_nothing (w : World) :
  commit w (st w, []) = w.
Proof. destruct w. unfold commit. simpl. now rewrite !app_nil_r. Qed.

Lemma step_chat_flag (w : World) (ev : Event) :
  key_sends ev = false ->
  flag_counts_posts w -> flag_counts_posts (step w ev).
Proof.
  unfold flag_counts_posts. intros Hk Hw.
  destruct ev as [d | | v | file | i ok | | now | key sh now | i r now | i];
    cbn [step].
  - destruct (history_due w); exact Hw.
  - destruct (history_due w); exact Hw.
  - exact Hw.
  - destruct file as [f|]; unfold handleImageSelect, commit;
      [destruct (negb _)|]; simpl; rewrite ?app_nil_r; exact Hw.
  - destruct (nth_error (reads w) i); exact Hw.
  - destruct (Js.truthy (selectedImage (st w))); exact Hw.
  - destruct (send_disabled (st w)) eqn:Hd; [exact Hw|].
    unfold send_disabled in Hd. apply orb_false_iff in Hd as [Hg Hl].
    unfold sendMessage. rewrite Hg. unfold commit. simpl.
    rewrite length_app, Hw, Hl. reflexivity.
  - destruct (handleKeyPress_cases key sh now (st w)) as [H | [H _]].
    + rewrite H, commit_nothing. exact Hw.
    + rewrite Hk in H. discriminate H.
  - destruct (nth_error (posts w) i) eqn:Hi; [|exact Hw].
    unfold commit. simpl.
    rewrite app_nil_r, (chat_remove_at_length _ _ _ Hi), Hw.
    destruct (isLoading (st w)); reflexivity.
  - destruct (nth_error (posts w) i) eqn:Hi; [|exact Hw].
    unfold commit. simpl.
    rewrite app_nil_r, (chat_remove_at_length _ _ _ Hi), Hw.
    destruct (isLoading (st w)); reflexivity.
Qed.

(** X10. As long as messages are sent with the button only (no Enter in the
    text input), the chat page has at most one request pending, and
    [isLoading] is set exactly while one is. *)
Theorem chat_button_single_flight (sid : string) (evs : list Event) :
  forallb (fun ev => negb (key_sends ev)) evs = true ->
  let w := run (boot sid) evs in
  length (posts w) <= 1
  /\ (isLoading (st w) = true <-> length (posts w) = 1).
Proof.
  intros Hk w.
  assert (Hw : flag_counts_posts w).
  { unfold w. clear w. generalize (boot sid), (eq_refl : flag_counts_posts (boot sid)).
    induction evs as [|ev evs IH]; intros w0 H0; [exact H0|].
    simpl in Hk. apply andb_true_iff in Hk as [Hev Hk].
    cbn [run fold_left]. apply (IH Hk).
    apply step_chat_flag; [now apply negb_true_iff|exact H0]. }
  unfold flag_counts_posts in Hw. rewrite Hw.
  destruct (isLoading (st w)); split; try lia; split; intros; try lia;
    try reflexivity; discriminate.
Qed.

Lemma chat_button_single_flight_witness :
  length (posts (run (boot "session_1")
                   [history_fulfilled []; input_change "first";
                    click_send "t1"; input_change "second";
                    click_send "t2"])) <= 1.
Proof.
  exact (proj1 (chat_button_single_flight "session_1"
                  [history_fulfilled []; input_change "first";
                   click_send "t1"; input_change "second"; click_send "t2"]
                  eq_refl)).
Defined.

Lemma step_session_kept (sid : string) (w : World) (ev : Event) :
  session_kept sid w -> session_kept sid (step w ev).
Proof.
  intros (Hs & Hp & Hg).
  assert (Hsend : forall now,
             session_kept sid (commit w (sendMessage now (st w)))).
  { intros now.
    destruct (sendMessage_cases now (st w)) as [H | (b & H & Hb & _)];
      rewrite H.
    - rewrite commit_nothing. now repeat split.
    - unfold session_kept, commit. simpl.
      rewrite chat_started_posts_app, chat_started_gets_app, app_nil_r.
      repeat split; auto. apply Forall_app. split; [exact Hp|].
      constructor; [congruence|constructor]. }
  destruct ev as [d | | v | file | i ok | | now | key sh now | i r now | i];
    cbn [step].
  - destruct (history_due w); now repeat split.
  - destruct (history_due w); [|now repeat split].
    unfold session_kept. simpl.
    rewrite chat_started_posts_app, chat_started_gets_app, !app_nil_r.
    now repeat split.
  - now repeat split.
  - destruct file as [f|]; unfold handleImageSelect;
      [destruct (negb _)|]; unfold session_kept, commit; simpl;
      rewrite chat_started_posts_app, chat_started_gets_app, !app_nil_r;
      now repeat split.
  - destruct (nth_error (reads w) i); now repeat split.
  - destruct (Js.truthy (selectedImage (st w))); now repeat split.
  - destruct (send_disabled (st w)); [now repeat split|apply Hsend].
  - destruct (handleKeyPress_cases key sh now (st w)) as [H | [_ H]];
      rewrite H; [rewrite commit_nothing; now repeat split | apply Hsend].
  - destruct (nth_error (posts w) i); [|now repeat split].
    unfold session_kept, commit. simpl.
    rewrite chat_started_posts_app, chat_started_gets_app, !app_nil_r.
    now repeat split.
  - destruct (nth_error (posts w) i); [|now repeat split].
    unfold session_kept, commit. simpl.
    rewrite chat_started_posts_app, chat_started_gets_app, !app_nil_r.
    now repeat split.
Qed.

(** X11. Whatever happens on the chat page, its session id stays the one it
    was created with, every chat request carries that id, and the history
    of that session is requested exactly once. *)
Theorem chat_session_id_fixed (sid : string) (evs : list Event) :
  let w := run (boot sid) evs in
  sessionId (st w) = sid
  /\ Forall (fun b => Request.session_id b = sid) (started_posts (log w))
  /\ started_gets (log w) = [sid].
Proof.
  intros w. unfold w. clear w.
  assert (H0 : session_kept sid (boot sid)) by (repeat split; constructor).
  revert H0. generalize (boot sid).
  induction evs as [|ev evs IH]; intros w0 H0; [exact H0|].
  cbn [run fold_left]. apply IH, step_session_kept, H0.
Qed.

End ChatTraces.

(** ** The chat page: the message list over time *)

Section ChatMessages.

Import Chat.

Lemma step_appends (w : World) (ev : Event) :
  history_due w = false ->
  history_due (step w ev) = false
  /\ exists l, messages (st (step w ev)) = messages (st w) ++ l.
Proof.
  intros Hh.
  assert (Hsame : history_due w = false
                  /\ exists l, messages (st w) = messages (st w) ++ l).
  { split; [exact Hh|]. exists []. now rewrite app_nil_r. }
  assert (Hsend : forall now,
             history_due (commit w (sendMessage now (st w))) = false
             /\ exists l,
                 messages (st (commit w (sendMessage now (st w))))
                 = messages (st w) ++ l).
  { intros now.
    destruct (sendMessage_cases now (st w)) as [H | (b & H & _)]; rewrite H.
    - rewrite commit_nothing. exact Hsame.
    - unfold commit. simpl. split; [exact Hh|]. eexists. reflexivity. }
  destruct ev as [d | | v | file | i ok | | now | key sh now | i r now | i];
    cbn [step].
  - rewrite Hh. exact Hsame.
  - rewrite Hh. exact Hsame.
  - exact Hsame.
  - destruct file as [f|]; unfold handleImageSelect;
      [destruct (negb _)|]; exact Hsame.
  - destruct (nth_error (reads w) i); exact Hsame.
  - destruct (Js.truthy (selectedImage (st w))); exact Hsame.
  - destruct (send_disabled (st w)); [exact Hsame | apply Hsend].
  - destruct (handleKeyPress_cases key sh now (st w)) as [H | [_ H]];
      rewrite H; [rewrite commit_nothing; exact Hsame | apply Hsend].
  - destruct (nth_error (posts w) i); [|exact Hsame].
    unfold commit. simpl. split; [exact Hh|]. eexists. reflexivity.
  - destruct (nth_error (posts w) i); [|exact Hsame].
    unfold commit. simpl. exact Hsame.
Qed.

(** X12. Once the history request has settled, the message list only grows at
    its end: no event removes, replaces or reorders an entry. *)
Theorem chat_messages_append_only (evs : list Event) (w : World) :
  history_due w = false ->
  exists l, messages (st (run w evs)) = messages (st w) ++ l.
Proof.
  revert w. induction evs as [|ev evs IH]; intros w Hh.
  - exists []. simpl. now rewrite app_nil_r.
  - destruct (step_appends w ev Hh) as (Hh' & l1 & H1).
    destruct (IH (step w ev) Hh') as (l2 & H2).
    exists (l1 ++ l2). cbn [run fold_left]. fold (run (step w ev) evs).
    now rewrite H2, H1, app_assoc.
Qed.

Lemma chat_messages_append_only_witness :
  exists l,
    messages
      (st (run (run (boot "session_1")
                    [history_fulfilled []; input_change "first";
                     click_send "t1"])
               [history_fulfilled [mkChatMessage assistant "old" None "t0"];
                chat_rejected 0; input_change "second";
                key_press "Enter" false "t2";
                chat_fulfilled 0 "reply" "t3"]))
    = [mkChatMessage user "first" None "t1"] ++ l.
Proof.
  exact (chat_messages_append_only
           [history_fulfilled [mkChatMessage assistant "old" None "t0"];
            chat_rejected 0; input_change "second";
            key_press "Enter" false "t2"; chat_fulfilled 0 "reply" "t3"]
           (run (boot "session_1")
                [history_fulfilled []; input_change "first";
                 click_send "t1"])
           eq_refl).
Defined.

Lemma not_blank_truthy (s : string) :
  Js.blank s = false -> Js.truthy_string s = true.
Proof. destruct s; [discriminate|reflexivity]. Qed.

(** X13. The history response replaces the message list: when the user sends a
    first message before the history request has settled, the response
    takes its place in the list, while the request for that message stays
    pending. *)
Theorem chat_late_history_replaces_sent_message
  (sid text now : string) (response_data : list ChatMessage) :
  Js.blank text = false ->
  let sent := run (boot sid) [input_change text; click_send now] in
  messages (st sent) = [mkChatMessage user text None now]
  /\ messages (st (step sent (history_fulfilled response_data)))
     = response_data
  /\ posts (step sent (history_fulfilled response_data))
     = [Request.mk sid text None]
  /\ isLoading (st (step sent (history_fulfilled response_data))) = true.
Proof.
  intros Hb. cbn [run fold_left]. cbn [step]. unfold send_disabled.
  simpl. rewrite trim_empty_iff_blank, Hb. simpl.
  unfold sendMessage. simpl. rewrite trim_empty_iff_blank, Hb. simpl.
  unfold Js.or_string. rewrite (not_blank_truthy text Hb).
  repeat split.
Qed.

Lemma chat_late_history_replaces_sent_message_witness :
  messages (st (run (boot "session_1")
                  [input_change "first"; click_send "t1";
                   history_fulfilled []]))
  = [].
Proof.
  exact (proj1 (proj2 (chat_late_history_replaces_sent_message
                         "session_1" "first" "t1" [] eq_refl))).
Defined.

(** X14. Whichever reply arrives first clears [isLoading]: with two or more
    requests pending, after one of them is answered or fails the flag is
    down although a request is still pending. *)
Theorem chat_first_reply_clears_loading
  (w : World) (i : nat) (response_text now : string) :
  2 <= length (posts w) -> i < length (posts w) ->
  isLoading (st (step w (chat_fulfilled i response_text now))) = false
  /\ isLoading (st (step w (chat_rejected i))) = false
  /\ posts (step w (chat_fulfilled i response_text now)) <> []
  /\ posts (step w (chat_rejected i)) <> [].
Proof.
  intros H2 Hi. cbn [step].
  destruct (nth_error (posts w) i) eqn:E;
    [|apply nth_error_None in E; lia].
  unfold commit. simpl. rewrite app_nil_r.
  pose proof (chat_remove_at_length _ _ _ E) as Hlen.
  repeat split; intros Hn; rewrite Hn in Hlen; simpl in Hlen; lia.
Qed.

Lemma chat_first_reply_clears_loading_witness :
  isLoading
    (st (run (boot "session_1")
           [history_fulfilled []; input_change "first"; click_send "t1";
            input_change "second"; key_press "Enter" false "t2";
            chat_fulfilled 0 "reply to first" "t3"]))
  = false.
Proof.
  refine (proj1 (chat_first_reply_clears_loading
                   (run (boot "session_1")
                      [history_fulfilled []; input_change "first";
                       click_send "t1"; input_change "second";
                       key_press "Enter" false "t2"])
                   0 "reply to first" "t3" _ _)); simpl; lia.
Defined.

End ChatMessages.

(** ** The chat page: where attachments come from *)

Section ChatProvenance.

Import Chat.

Variable P : File -> Prop.

Lemma send_provenance (w : World) (now : string) :
  provenance P w -> provenance P (commit w (sendMessage now (st w))).
Proof.
  intros (Hr & Hs & Hp).
  destruct (sendMessage_cases now (st w)) as [H | (b & H & _ & Hb)];
    rewrite H.
  - rewrite commit_nothing. now repeat split.
  - unfold provenance, commit. simpl.
    rewrite chat_started_posts_app, app_nil_r. repeat split; auto.
    + left; reflexivity.
    + apply Forall_app. split; [exact Hp|]. constructor; [|constructor].
      destruct Hs as [Hn | (f & Hf & Hsel)].
      * left. rewrite Hb, Hn. reflexivity.
      * right. exists f. split; [exact Hf|].
        rewrite Hb, Hsel, data_url_truthy. reflexivity.
Qed.

Lemma step_chat_provenance (w : World) (ev : Event) :
  provenance P w ->
  (forall f, ev = change_file (Some f) -> image_file f -> P f) ->
  provenance P (step w ev).
Proof.
  intros Hw Hev. pose proof Hw as (Hr & Hs & Hp).
  destruct ev as [d | | v | file | i ok | | now | key sh now | i r now | i];
    cbn [step].
  - destruct (history_due w); now repeat split.
  - destruct (history_due w); [|exact Hw].
    unfold provenance. simpl.
    rewrite chat_started_posts_app, app_nil_r. now repeat split.
  - now repeat split.
  - destruct file as [f|]; unfold handleImageSelect.
    + destruct (Js.startsWith (type f) "image/") eqn:Hf; simpl;
        unfold provenance, commit; simpl;
        rewrite chat_started_posts_app, ?app_nil_r; repeat split; auto.
      apply Forall_app. split; [exact Hr|].
      constructor; [|constructor]. apply Hev; [reflexivity|exact Hf].
    + rewrite commit_nothing. exact Hw.
  - destruct (nth_error (reads w) i) as [file|] eqn:Hi; [|exact Hw].
    assert (Hfile : P file).
    { eapply Forall_forall; [exact Hr | eapply nth_error_In; exact Hi]. }
    unfold provenance; simpl. repeat split.
    + apply (Forall_remove_at P i (reads w) Hr).
    + destruct ok; [right; exists file; split; [exact Hfile|reflexivity]
                   | left; reflexivity].
    + exact Hp.
  - destruct (Js.truthy (selectedImage (st w))); [|exact Hw].
    unfold provenance; simpl. repeat split; auto. left; reflexivity.
  - destruct (send_disabled (st w)); [exact Hw | now apply send_provenance].
  - destruct (handleKeyPress_cases key sh now (st w)) as [H | [_ H]];
      rewrite H; [rewrite commit_nothing; exact Hw
                 | now apply send_provenance].
  - destruct (nth_error (posts w) i); [|exact Hw].
    unfold provenance, commit; simpl.
    rewrite chat_started_posts_app, !app_nil_r. now repeat split.
  - destruct (nth_error (posts w) i); [|exact Hw].
    unfold provenance, commit; simpl.
    rewrite chat_started_posts_app, !app_nil_r. now repeat split.
Qed.

Lemma run_chat_provenance (evs : list Event) (w : World) :
  provenance P w ->
  (forall f, In f (chosen evs) -> image_file f -> P f) ->
  provenance P (run w evs).
Proof.
  revert w. induction evs as [|ev evs IH]; intros w Hw HP; [exact Hw|].
  cbn [run fold_left]. apply IH.
  - apply step_chat_provenance; [exact Hw|].
    intros f Hev Hf. apply HP; [|exact Hf]. subst ev. simpl. now left.
  - intros f Hin Hf. apply HP; [|exact Hf].
    unfold chosen. simpl. apply in_or_app. right. exact Hin.
Qed.

End ChatProvenance.

(** X15. Whatever the events on the chat page, the pending attachment is
    [null] or the data URL of a chosen file that passed the [image/]
    check, and every chat request carries either no image or the piece cut
    from such a data URL: the base64 text of the file when its type holds
    no comma. *)
Theorem chat_attachments_are_chosen_images
  (sid : string) (evs : list Chat.Event) :
  let w := Chat.run (Chat.boot sid) evs in
  let P := fun f => Chat.image_file f /\ In f (Chat.chosen evs) in
  Chat.selection_of P (Chat.selectedImage (Chat.st w))
  /\ Forall P (Chat.reads w)
  /\ (forall body, In body (Chat.started_posts (Chat.log w)) ->
        Chat.Request.image_base64 body = None
        \/ exists f, P f
             /\ Chat.Request.image_base64 body
                = Js.index (Js.split ","%char (readAsDataURL f)) 1
             /\ (Js.occurs ","%char (type f) = false ->
                 Chat.Request.image_base64 body
                 = Some (Base64.encode (bytes f)))).
Proof.
  intros w P.
  assert (H : Chat.provenance P w).
  { apply run_chat_provenance.
    - split; [constructor|]. split; [left; reflexivity|constructor].
    - intros f Hin Hf. now split. }
  destruct H as (Hr & Hs & Hp). repeat split; try assumption.
  intros body Hin.
  destruct (proj1 (Forall_forall _ _) Hp body Hin) as [Hn | (f & Hf & Hb)];
    [left; exact Hn | right].
  exists f. repeat split; try apply Hf; [exact Hb|].
  intros Hc. rewrite Hb, data_url_split by exact Hc. reflexivity.
Qed.

Lemma chat_attachments_are_chosen_images_witness :
  Some "TWFu" = None
  \/ exists f, (Chat.image_file f /\ In f [Sample.leaf_png])
               /\ Some "TWFu"
                  = Js.index (Js.split ","%char (readAsDataURL f)) 1
               /\ (Js.occurs ","%char (type f) = false ->
                   Some "TWFu" = Some (Base64.encode (bytes f))).
Proof.
  exact (proj2 (proj2 (chat_attachments_are_chosen_images "session_1"
                         [Chat.change_file (Some Sample.leaf_png);
                          Chat.loadend 0 true; Chat.click_send "t"]))
               (Chat.Request.mk "session_1" "Please analyze this image"
                                (Some "TWFu"))
               (or_introl eq_refl)).
Defined.

(** ** The chat page: the image of a bubble *)

Lemma length_append_string (a b : string) :
  String.length (a ++ b) = String.length a + String.length b.
Proof. induction a as [|x a IH]; simpl; [reflexivity|now rewrite IH]. Qed.

Lemma append_cancel_r (a b c : string) :
  (a ++ c = b ++ c)%string -> a = b.
Proof.
  revert b. induction a as [|x a IH]; intros [|y b] H; simpl in H.
  - reflexivity.
  - apply (f_equal String.length) in H. simpl in H.
    rewrite length_append_string in H. lia.
  - apply (f_equal String.length) in H. simpl in H.
    rewrite length_append_string in H. lia.
  - injection H as Hx Hr. subst y. f_equal. exact (IH b Hr).
Qed.

Lemma encode_truthy (bs : list byte) :
  bs <> [] -> Js.truthy_string (Base64.encode bs) = true.
Proof.
  destruct bs as [|a [|b [|c rest]]]; intros H;
    [contradiction | reflexivity | reflexivity | reflexivity].
Qed.

(** X16. A bubble rebuilds its image from the transport payload under the
    fixed label [image/jpeg]: for the payload of a file with content, the
    [src] is the file's own data URL exactly when the file is typed
    [image/jpeg]; for a file without content the payload is the empty
    string and no image is rendered. *)
Theorem chat_bubble_image_from_payload
  (file : File) (r : Chat.Role) (text ts : string) :
  Js.occurs ","%char (type file) = false ->
  let msg := Chat.mkChatMessage
               r text (Js.index (Js.split ","%char (readAsDataURL file)) 1)
               ts in
  (bytes file = [] -> Chat.img_src msg = None)
  /\ (bytes file <> [] ->
      Chat.img_src msg
      = Some ("data:image/jpeg;base64," ++ Base64.encode (bytes file))%string
      /\ (Chat.img_src msg = Some (readAsDataURL file)
          <-> type file = "image/jpeg")).
Proof.
  intros Hc msg. unfold msg, Chat.img_src. cbn [Chat.image_base64].
  rewrite data_url_split by exact Hc. cbn [Js.index nth_error].
  split.
  - intros He. rewrite He. reflexivity.
  - intros Hne. rewrite (encode_truthy _ Hne). split; [reflexivity|].
    split.
    + intros H. injection H as H. unfold readAsDataURL in H.
      change ("data:image/jpeg;base64," ++ Base64.encode (bytes file))%string
        with ("data:" ++ "image/jpeg"
                ++ (";base64," ++ Base64.encode (bytes file)))%string in H.
      simpl in H.
      change (String ";" (String "b" (String "a" (String "s" (String "e"
                (String "6" (String "4" (String ","
                   (Base64.encode (bytes file))))))))))
        with (";base64," ++ Base64.encode (bytes file))%string in H.
      change (String "i" (String "m" (String "a" (String "g" (String "e"
                (String "/" (String "j" (String "p" (String "e" (String "g"
                   (";base64," ++ Base64.encode (bytes file))))))))))))%string
        with ("image/jpeg" ++ (";base64," ++ Base64.encode (bytes file)))%string
        in H.
      symmetry. exact (append_cancel_r _ _ _ H).
    + intros Ht. unfold readAsDataURL. rewrite Ht. reflexivity.
Qed.

Lemma chat_bubble_image_from_payload_witness :
  Chat.img_src (Chat.mkChatMessage Chat.user "" (Some "QUI=") "t")
  = Some (readAsDataURL Sample.leaf_jpg).
Proof.
  destruct (chat_bubble_image_from_payload Sample.leaf_jpg Chat.user "" "t"
              eq_refl) as [_ H].
  assert (Hne : bytes Sample.leaf_jpg <> []) by discriminate.
  exact (proj2 (proj2 (H Hne)) eq_refl).
Defined.

(** ** The history page *)

Lemma prefix_iff (p s : string) :
  String.prefix p s = true <-> exists r, s = (p ++ r)%string.
Proof.
  revert s. induction p as [|a p IH]; intros s.
  - split; [intros _; exists s; reflexivity | intros _; apply prefix_empty].
  - destruct s as [|b s]; simpl.
    + split; [discriminate | intros [r Hr]; discriminate Hr].
    + destruct (ascii_dec a b) as [E | N].
      * subst b. rewrite IH. split; intros [r Hr]; exists r;
          [now rewrite Hr | now injection Hr].
      * split; [discriminate | intros [r Hr]; injection Hr as Hb _].
        now contradiction N.
Qed.

Lemma includes_nil (sub : string) :
  Js.includes EmptyString sub = String.prefix sub EmptyString.
Proof. unfold Js.includes. apply orb_false_r. Qed.

Lemma includes_cons (c : ascii) (s sub : string) :
  Js.includes (String c s) sub
  = String.prefix sub (String c s) || Js.includes s sub.
Proof. reflexivity. Qed.

Lemma includes_iff (s sub : string) :
  Js.includes s sub = true
  <-> exists before after, s = (before ++ sub ++ after)%string.
Proof.
  induction s as [|c s IH].
  - rewrite includes_nil, prefix_iff. split.
    + intros [r Hr]. exists EmptyString, r. exact Hr.
    + intros (b & a & H). destruct b; [|discriminate H]. now exists a.
  - rewrite includes_cons, orb_true_iff, IH, prefix_iff. split.
    + intros [[r Hr] | (b & a & H)].
      * exists EmptyString, r. exact Hr.
      * exists (String c b), a. simpl. now rewrite H.
    + intros (b & a & H). destruct b as [|x b]; simpl in H.
      * left. now exists a.
      * right. injection H as _ H. now exists b, a.
Qed.

Lemma toLowerCase_append (a b : string) :
  Js.toLowerCase (a ++ b) = (Js.toLowerCase a ++ Js.toLowerCase b)%string.
Proof. induction a as [|x a IH]; simpl; [reflexivity|now rewrite IH]. Qed.

(** Lower-casing works character by character, so a cut of the result is
    the image of a cut of the argument. *)
Lemma toLowerCase_cut (s a b : string) :
  Js.toLowerCase s = (a ++ b)%string ->
  exists s1 s2, s = (s1 ++ s2)%string
                /\ Js.toLowerCase s1 = a /\ Js.toLowerCase s2 = b.
Proof.
  revert s. induction a as [|x a IH]; intros s H; simpl in H.
  - exists EmptyString, s. now repeat split.
  - destruct s as [|c s]; [discriminate H|]. simpl in H.
    injection H as Hc Hs. destruct (IH s Hs) as (s1 & s2 & E & H1 & H2).
    exists (String c s1), s2. simpl. now rewrite E, H1, Hc.
Qed.

Section HistoryPage.

Import History.

(** X18. An entry gets the check mark exactly when its disease name contains
    the word "healthy" in any mix of upper and lower case, anywhere in the
    name, also inside a longer word; every other entry gets the warning
    triangle. *)
Theorem history_icon_healthy_iff (prediction : Prediction) :
  (icon prediction = CheckCircle2
   <-> exists before word after,
         disease_name prediction = (before ++ word ++ after)%string
         /\ Js.toLowerCase word = "healthy")
  /\ (icon prediction = AlertTriangle <-> icon prediction <> CheckCircle2).
Proof.
  split.
  - unfold icon.
    destruct (Js.includes (Js.toLowerCase (disease_name prediction)) "healthy")
      eqn:E.
    + split; [intros _|reflexivity].
      apply includes_iff in E as (b & a & H).
      apply toLowerCase_cut in H as (s1 & s23 & Hs & H1 & H23).
      apply toLowerCase_cut in H23 as (s2 & s3 & Hs' & H2 & H3).
      exists s1, s2, s3. subst s23. split; assumption.
    + split; [discriminate|]. intros (b & w & a & Hn & Hw).
      assert (T : Js.includes (Js.toLowerCase (disease_name prediction))
                              "healthy" = true).
      { apply includes_iff.
        exists (Js.toLowerCase b), (Js.toLowerCase a).
        now rewrite Hn, !toLowerCase_append, Hw. }
      rewrite T in E. discriminate E.
  - destruct (icon prediction); split; congruence.
Qed.

Lemma history_icon_healthy_iff_witness :
  icon (mkPrediction "7" "Unhealthy growth" 61 "..." "2025-01-05T10:00:00Z")
  = CheckCircle2.
Proof.
  apply (proj1 (history_icon_healthy_iff
                  (mkPrediction "7" "Unhealthy growth" 61 "..."
                                "2025-01-05T10:00:00Z"))).
  exists "Un", "healthy", " growth". split; reflexivity.
Defined.

Lemma step_settled (w : World) (ev : Event) : due w = false -> step w ev = w.
Proof. intros H. unfold step. now rewrite H. Qed.

Lemma run_settled (evs : list Event) (w : World) :
  due w = false -> run w evs = w.
Proof.
  induction evs as [|ev evs IH]; intros H; [reflexivity|].
  cbn [run fold_left]. rewrite (step_settled w ev H). exact (IH H).
Qed.

Lemma cards_of_formatted (format : string -> option string)
  (ps : list Prediction) :
  Forall (fun p => format (timestamp p) <> None) ps ->
  exists items,
    cards_of format ps = Some items
    /\ map title items = map disease_name ps
    /\ map mark items = map icon ps
    /\ map (fun c => Some (date c)) items
       = map (fun p => format (timestamp p)) ps.
Proof.
  induction 1 as [|p ps Hp _ (items & Hc & Ht & Hm & Hd)].
  - exists []. repeat split.
  - cbn [cards_of]. unfold card, formatDate. rewrite Hc.
    destruct (format (timestamp p)) as [d|] eqn:E; [|contradiction].
    eexists. split; [reflexivity|]. simpl. rewrite Ht, Hm, Hd, E.
    repeat split.
Qed.

Lemma cards_of_unparsable (format : string -> option string)
  (ps : list Prediction) :
  Exists (fun p => format (timestamp p) = None) ps ->
  cards_of format ps = None.
Proof.
  induction 1 as [p ps Hp | p ps _ IH]; cbn [cards_of];
    unfold card, formatDate.
  - now rewrite Hp.
  - rewrite IH. destruct (format (timestamp p)); reflexivity.
Qed.

(** X19. The page asks for the history once and shows what the first response
    decides: the spinner until then; on success "No Scans Yet" for an
    empty list and, when every time stamp formats, one card per returned
    record in the returned order, with its name, icon and formatted date;
    when one time stamp does not parse the render throws and no card is
    shown; on failure "No Scans Yet" with the error toast.  Nothing that
    comes later changes the page. *)
Theorem history_first_response_decides
  (format : string -> option string) (ev : Event) (evs : list Event) :
  render format (st boot) = spinner
  /\ run boot (ev :: evs) = step boot ev
  /\ match ev with
     | history_fulfilled response_data =>
         log (step boot ev) = [get_predictions]
         /\ (response_data = [] ->
             render format (st (step boot ev)) = no_scans)
         /\ (response_data <> [] ->
             Forall (fun p => format (timestamp p) <> None) response_data ->
             exists items,
               render format (st (step boot ev)) = cards items
               /\ map title items = map disease_name response_data
               /\ map mark items = map icon response_data
               /\ map (fun c => Some (date c)) items
                  = map (fun p => format (timestamp p)) response_data)
         /\ (Exists (fun p => format (timestamp p) = None) response_data ->
             render format (st (step boot ev)) = render_throws)
     | history_rejected =>
         render format (st (step boot ev)) = no_scans
         /\ log (step boot ev)
            = [get_predictions; console_error "Error loading history:";
               toast_error "Failed to load history"]
     end.
Proof.
  split; [reflexivity|]. split.
  - cbn [run fold_left]. apply run_settled. destruct ev; reflexivity.
  - destruct ev as [d|]; [|split; reflexivity].
    split; [reflexivity|]. split; [intros ->; reflexivity|]. split.
    + intros Hne Hall.
      destruct (cards_of_formatted format d Hall) as (items & Hc & Ht & Hm & Hd).
      exists items. unfold render. simpl.
      destruct d as [|p d]; [contradiction|]. cbn [length Nat.eqb].
      rewrite Hc. repeat split; assumption.
    + intros Hex. unfold render. simpl.
      destruct d as [|p d]; [inversion Hex|]. cbn [length Nat.eqb].
      now rewrite (cards_of_unparsable format _ Hex).
Qed.

Lemma history_first_response_decides_witness :
  render Sample.format_2025
         (st (step boot
                (history_fulfilled
                   [mkPrediction "7" "Leaf Blight" 92 "..."
                                 "2025-01-05T10:00:00Z";
                    mkPrediction "8" "Healthy" 88 "..." "yesterday"])))
  = render_throws.
Proof.
  destruct (history_first_response_decides
              Sample.format_2025
              (history_fulfilled
                 [mkPrediction "7" "Leaf Blight" 92 "..."
                               "2025-01-05T10:00:00Z";
                  mkPrediction "8" "Healthy" 88 "..." "yesterday"])
              []) as (_ & _ & _ & _ & _ & H).
  apply H. apply Exists_cons_tl, Exists_cons_hd. reflexivity.
Defined.

End HistoryPage.

(** ** The bottom navigation *)

Section Navigation.

Import Layout.

(** X20. At every location at most one tab is active; right after a click on
    a tab that tab alone is active; and no tab is active exactly at the
    locations that are not the path of a tab, such as a result page. *)
Theorem layout_one_active_tab (pathname : string) :
  length (active pathname) <= 1
  /\ (forall item, In item navItems ->
        active (onClick item pathname) = [item])
  /\ (active pathname = [] <-> ~ In pathname (map path navItems)).
Proof.
  unfold active, navItems, isActive. cbn [filter path map].
  split; [|split].
  - destruct (String.eqb_spec pathname "/") as [E | N1];
      [subst; simpl; lia|].
    destruct (String.eqb_spec pathname "/chat") as [E | N2];
      [subst; simpl; lia|].
    destruct (String.eqb pathname "/history"); simpl; lia.
  - intros item [H | [H | [H | []]]]; subst item; reflexivity.
  - destruct (String.eqb_spec pathname "/") as [E | N1].
    { split; [discriminate|]. intros H. exfalso. apply H. left. now symmetry. }
    destruct (String.eqb_spec pathname "/chat") as [E | N2].
    { split; [discriminate|]. intros H. exfalso. apply H. right. left.
      now symmetry. }
    destruct (String.eqb_spec pathname "/history") as [E | N3].
    { split; [discriminate|]. intros H. exfalso. apply H. right. right. left.
      now symmetry. }
    split; [|reflexivity]. intros _ [H | [H | [H | []]]];
      symmetry in H; contradiction.
Qed.

End Navigation.

(** ** What is shown was received *)

Lemma step_prediction (w : Home.World) (ev : Home.Event) (p : Home.Prediction) :
  Home.prediction (Home.st (Home.step w ev)) = Some p ->
  Home.prediction (Home.st w) = Some p
  \/ exists i, ev = Home.predict_fulfilled i p.
Proof.
  destruct ev as [file | i ok | | | i q | i e]; cbn [Home.step].
  - destruct (Home.results_shown (Home.st w)); [now left|].
    destruct file as [f|]; unfold Home.handleImageSelect;
      [destruct (negb _)|]; simpl; now left.
  - destruct (nth_error (Home.reads w) i); simpl; now left.
  - destruct (Home.results_shown (Home.st w) || Home.analyze_disabled (Home.st w));
      [now left|].
    unfold Home.analyzeImage.
    destruct (negb (Js.truthy (Home.selectedImage (Home.st w)))); simpl;
      now left.
  - destruct (Home.results_shown (Home.st w) || Home.reset_shown (Home.st w));
      simpl; [discriminate | now left].
  - destruct (nth_error (Home.posts w) i); simpl; [|now left].
    intros H. injection H as H. subst q. right. now exists i.
  - destruct (nth_error (Home.posts w) i); simpl; now left.
Qed.

(** X7. The diagnosis page never shows a Prediction of its own making: the
    Prediction it holds, if any, is the body of a successful response
    among the events so far. *)
Theorem home_prediction_was_returned
  (evs : list Home.Event) (p : Home.Prediction) :
  Home.prediction (Home.st (Home.run Home.boot evs)) = Some p ->
  exists i, In (Home.predict_fulfilled i p) evs.
Proof.
  induction evs as [|ev evs IH] using rev_ind; [discriminate|].
  unfold Home.run. rewrite fold_left_app. cbn [fold_left].
  fold (Home.run Home.boot evs). intros H.
  destruct (step_prediction _ _ _ H) as [Hp | [i Hi]].
  - destruct (IH Hp) as [i Hi]. exists i. apply in_or_app. now left.
  - exists i. apply in_or_app. right. subst ev. now left.
Qed.

Lemma home_prediction_was_returned_witness :
  exists i,
    In (Home.predict_fulfilled i Sample.blight)
       [Home.change_file (Some Sample.leaf_png); Home.loadend 0 true;
        Home.click_analyze; Home.predict_fulfilled 0 Sample.blight].
Proof.
  exact (home_prediction_was_returned
           [Home.change_file (Some Sample.leaf_png); Home.loadend 0 true;
            Home.click_analyze; Home.predict_fulfilled 0 Sample.blight]
           Sample.blight eq_refl).
Defined.

Section ChatOrigins.

Import Chat.

Lemma message_origin_mono (evs more : list Event) (m : ChatMessage) :
  message_origin evs m -> message_origin (evs ++ more) m.
Proof.
  intros [(d & Hd & Hm) | [(Hr & [Hc | (k & sh & Hk)]) | (i & r & now & Hi & Hm)]].
  - left. exists d. split; [apply in_or_app; now left | exact Hm].
  - right. left. split; [exact Hr|]. left. apply in_or_app. now left.
  - right. left. split; [exact Hr|]. right. exists k, sh.
    apply in_or_app. now left.
  - right. right. exists i, r, now. split; [apply in_or_app; now left|exact Hm].
Qed.

Lemma send_origin (w : World) (now : string) (m : ChatMessage) :
  In m (messages (st (commit w (sendMessage now (st w))))) ->
  In m (messages (st w)) \/ (role m = user /\ timestamp m = now).
Proof.
  destruct (sendMessage_cases now (st w)) as [H | (b & H & _)]; rewrite H.
  - rewrite commit_nothing. now left.
  - unfold commit. simpl. intros Hin. apply in_app_or in Hin as [Hin | Hin].
    + now left.
    + destruct Hin as [Hin | []]. subst m. right. split; reflexivity.
Qed.

Lemma step_message_origin (w : World) (ev : Event) (m : ChatMessage) :
  In m (messages (st (step w ev))) ->
  In m (messages (st w)) \/ message_origin [ev] m.
Proof.
  destruct ev as [d | | v | file | i ok | | now | key sh now | i r now | i];
    cbn [step].
  - destruct (history_due w); simpl; [|now left].
    intros Hin. right. left. exists d. split; [now left|exact Hin].
  - destruct (history_due w); simpl; now left.
  - now left.
  - destruct file as [f|]; unfold handleImageSelect;
      [destruct (negb _)|]; simpl; now left.
  - destruct (nth_error (reads w) i); simpl; now left.
  - destruct (Js.truthy (selectedImage (st w))); simpl; now left.
  - destruct (send_disabled (st w)); [now left|].
    intros Hin. destruct (send_origin w now m Hin) as [H | [Hr Ht]];
      [now left|].
    right. right. left. split; [exact Hr|]. left. rewrite Ht. now left.
  - destruct (handleKeyPress_cases key sh now (st w)) as [H | [_ H]];
      rewrite H; [rewrite commit_nothing; now left|].
    intros Hin. destruct (send_origin w now m Hin) as [H' | [Hr Ht]];
      [now left|].
    right. right. left. split; [exact Hr|]. right. exists key, sh.
    rewrite Ht. now left.
  - destruct (nth_error (posts w) i); [|now left].
    unfold commit. simpl. intros Hin.
    apply in_app_or in Hin as [Hin | [Hin | []]]; [now left|].
    right. right. right. exists i, r, now. split; [now left|now symmetry].
  - destruct (nth_error (posts w) i); [|now left].
    unfold commit. simpl. now left.
Qed.

(** X17. Every entry of the message list was received or sent: it is an entry
    of the history response, or a user entry stamped by one of the user's
    sends, or the assistant entry of a reply that arrived.  A failed
    request adds no entry, and the page invents no assistant entry. *)
Theorem chat_messages_have_origin
  (sid : string) (evs : list Event) (m : ChatMessage) :
  In m (messages (st (run (boot sid) evs))) -> message_origin evs m.
Proof.
  induction evs as [|ev evs IH] using rev_ind; [intros []|].
  unfold run. rewrite fold_left_app. cbn [fold_left].
  fold (run (boot sid) evs). intros H.
  destruct (step_message_origin _ _ _ H) as [Hin | Ho].
  - apply message_origin_mono, IH, Hin.
  - change (evs ++ [ev]) with (evs ++ [ev] ++ []).
    destruct Ho as [(d & Hd & Hm) | [(Hr & [Hc | (k & sh & Hk)])
                                    | (i & r & now & Hi & Hm)]].
    + left. exists d. split; [apply in_or_app; now right|exact Hm].
    + right. left. split; [exact Hr|]. left. apply in_or_app. now right.
    + right. left. split; [exact Hr|]. right. exists k, sh.
      apply in_or_app. now right.
    + right. right. exists i, r, now.
      split; [apply in_or_app; now right|exact Hm].
Qed.

Lemma chat_messages_have_origin_witness :
  message_origin
    [history_fulfilled []; input_change "first"; click_send "t1";
     chat_rejected 0]
    (mkChatMessage user "first" None "t1").
Proof.
  exact (chat_messages_have_origin "session_1"
           [history_fulfilled []; input_change "first"; click_send "t1";
            chat_rejected 0]
           (mkChatMessage user "first" None "t1") (or_introl eq_refl)).
Defined.

End ChatOrigins.

Lemma layout_one_active_tab_witness :
  Layout.active (Layout.onClick (Layout.mkNavItem "/chat" Layout.MessageCircle "Chat") "/")
  = [Layout.mkNavItem "/chat" Layout.MessageCircle "Chat"].
Proof.
  exact (proj1 (proj2 (layout_one_active_tab "/"))
               (Layout.mkNavItem "/chat" Layout.MessageCircle "Chat")
               (or_intror (or_introl eq_refl))).
Defined.
